(** * RAnimation easing library: a shallow embedding and its properties

    The library under study is a flat collection of numeric functions
    ([Easing]), of combinators on such functions ([EasingHelpers] /
    [helpers]) and of factories ([makeXxx] / [make.xxx]).  It exists in
    two source variants:

      - [src/animation/easing.jsx]  (shorthand methods, arrow functions),
        embedded below as module [Jsx];
      - the variant written with [function] expressions, whose
        factories live in a nested [make] object and whose helpers
        also offer [advance], embedded below as module [Legacy].

    JavaScript numbers are modelled by the type [Number] of module [JS]:
    the real numbers extended with [+Infinity], [-Infinity] and [NaN].
    Arithmetic on finite values is the exact arithmetic of the reals, so
    rounding and overflow of IEEE doubles are outside the model, and there
    is a single unsigned zero (a division by zero behaves as a division by
    [+0]).  Every easing function is a total function [Number -> Number],
    as in the source, where no operation ever throws. *)

From Stdlib Require Import Reals Lra Lia ZArith Bool.

(* ================================================================== *)
(** ** JavaScript numbers and the [Math] object *)
(* ================================================================== *)

Module JS.

Local Open Scope R_scope.

Inductive Number : Type :=
| Fin (r : R)
| PosInf
| NegInf
| NaN.

Declare Scope js_scope.
Delimit Scope js_scope with J.
Bind Scope js_scope with Number.

(** Boolean versions of the comparisons of the reals. *)
Definition Rltb (x y : R) : bool := if Rlt_dec x y then true else false.
Definition Rleb (x y : R) : bool := if Rle_dec x y then true else false.
Definition Reqb (x y : R) : bool := if Req_dec_T x y then true else false.

Definition isFinite (a : Number) : bool :=
  match a with Fin _ => true | _ => false end.

(** Unary minus. *)
Definition neg (a : Number) : Number :=
  match a with
  | Fin x => Fin (- x)
  | PosInf => NegInf
  | NegInf => PosInf
  | NaN => NaN
  end.

(** The infinity that has the sign of [x * inf], for [x <> 0]. *)
Definition signed (x : R) (inf : Number) : Number :=
  if Rltb 0 x then inf else neg inf.

Definition add (a b : Number) : Number :=
  match a, b with
  | NaN, _ | _, NaN => NaN
  | Fin x, Fin y => Fin (x + y)
  | PosInf, NegInf | NegInf, PosInf => NaN
  | PosInf, _ | _, PosInf => PosInf
  | NegInf, _ | _, NegInf => NegInf
  end.

Definition sub (a b : Number) : Number :=
  match a, b with
  | NaN, _ | _, NaN => NaN
  | Fin x, Fin y => Fin (x - y)
  | PosInf, PosInf | NegInf, NegInf => NaN
  | PosInf, _ | _, NegInf => PosInf
  | NegInf, _ | _, PosInf => NegInf
  end.

Definition mul (a b : Number) : Number :=
  match a, b with
  | NaN, _ | _, NaN => NaN
  | Fin x, Fin y => Fin (x * y)
  | Fin x, (PosInf | NegInf) as i
  | (PosInf | NegInf) as i, Fin x => if Reqb x 0 then NaN else signed x i
  | PosInf, PosInf | NegInf, NegInf => PosInf
  | PosInf, NegInf | NegInf, PosInf => NegInf
  end.

(** Division never throws: [x / 0] is an infinity with the sign of [x],
    and [0 / 0] is [NaN]. *)
Definition div (a b : Number) : Number :=
  match a, b with
  | NaN, _ | _, NaN => NaN
  | Fin x, Fin y =>
      if Reqb y 0
      then (if Reqb x 0 then NaN else signed x PosInf)
      else Fin (x / y)
  | Fin _, (PosInf | NegInf) => Fin 0
  | (PosInf | NegInf) as i, Fin y => if Rleb 0 y then i else neg i
  | (PosInf | NegInf), (PosInf | NegInf) => NaN
  end.

(** [a < b] and [a <= b]: every comparison with [NaN] is false. *)
Definition lt (a b : Number) : bool :=
  match a, b with
  | NaN, _ | _, NaN => false
  | Fin x, Fin y => Rltb x y
  | _, NegInf => false
  | NegInf, _ => true
  | PosInf, _ => false
  | Fin _, PosInf => true
  end.

Definition le (a b : Number) : bool :=
  match a, b with
  | NaN, _ | _, NaN => false
  | Fin x, Fin y => Rleb x y
  | NegInf, _ => true
  | _, PosInf => true
  | PosInf, _ => false
  | Fin _, NegInf => false
  end.

(** [a == b] on numbers: [NaN] is not equal to itself. *)
Definition eqb (a b : Number) : bool :=
  match a, b with
  | Fin x, Fin y => Reqb x y
  | PosInf, PosInf | NegInf, NegInf => true
  | _, _ => false
  end.

(** [a >= b] is [b <= a]: false as soon as one side is [NaN]. *)
Definition ge (a b : Number) : bool := le b a.

Notation "a + b" := (add a b) : js_scope.
Notation "a - b" := (sub a b) : js_scope.
Notation "a * b" := (mul a b) : js_scope.
Notation "a / b" := (div a b) : js_scope.
Notation "- a" := (neg a) : js_scope.
Notation "a <? b" := (lt a b) : js_scope.
Notation "a <=? b" := (le a b) : js_scope.
Notation "a >=? b" := (ge a b) : js_scope.

(** *** The [Math] object *)

Definition Math_PI : Number := Fin PI.

Definition Math_sin (a : Number) : Number :=
  match a with Fin x => Fin (sin x) | _ => NaN end.

Definition Math_cos (a : Number) : Number :=
  match a with Fin x => Fin (cos x) | _ => NaN end.

Definition Math_exp (a : Number) : Number :=
  match a with
  | Fin x => Fin (exp x)
  | PosInf => PosInf
  | NegInf => Fin 0
  | NaN => NaN
  end.

(** [Math.log]: [NaN] below zero, [-Infinity] at zero. *)
Definition Math_log (a : Number) : Number :=
  match a with
  | Fin x => if Rltb x 0 then NaN else if Reqb x 0 then NegInf else Fin (ln x)
  | PosInf => PosInf
  | NegInf | NaN => NaN
  end.

(** [Math.sqrt]: [NaN] below zero. *)
Definition Math_sqrt (a : Number) : Number :=
  match a with
  | Fin x => if Rltb x 0 then NaN else Fin (sqrt x)
  | PosInf => PosInf
  | NegInf | NaN => NaN
  end.

(** [Math.floor]: the greatest integer below or equal to the argument. *)
Definition Math_floor (a : Number) : Number :=
  match a with Fin x => Fin (IZR (Int_part x)) | _ => a end.

(** [Math.round]: the nearest integer, a tie going up, that is
    [floor (x + 1/2)]. *)
Definition Math_round (a : Number) : Number :=
  match a with Fin x => Fin (IZR (Int_part (x + / 2))) | _ => a end.

(** Truncation towards zero ([Math.trunc]); the library does not call
    it, it is the rounding that [makeElasticIn] is compared with. *)
Definition Math_trunc (a : Number) : Number :=
  match a with
  | Fin x => if Rltb x 0 then Fin (- IZR (Int_part (- x)))
             else Fin (IZR (Int_part x))
  | _ => a
  end.

(** Is the real [e] an integer, and is this integer odd? *)
Definition isInteger (e : R) : bool := Reqb e (IZR (Int_part e)).
Definition isOddInteger (e : R) : bool :=
  isInteger e && Z.odd (Int_part e).

(** [Math.pow base exponent], case by case as in ECMAScript's
    [Number::exponentiate]. *)
Definition Math_pow (base exponent : Number) : Number :=
  match exponent with
  | NaN => NaN
  | Fin e =>
      if Reqb e 0 then Fin 1 else
      match base with
      | NaN => NaN
      | PosInf => if Rltb 0 e then PosInf else Fin 0
      | NegInf =>
          if Rltb 0 e
          then (if isOddInteger e then NegInf else PosInf)
          else Fin 0
      | Fin b =>
          if Rltb 0 b then Fin (Rpower b e)
          else if Reqb b 0 then (if Rltb 0 e then Fin 0 else PosInf)
          else if isInteger e then Fin (powerRZ b (Int_part e))
          else NaN
      end
  | PosInf | NegInf =>
      match base with
      | NaN => NaN
      | PosInf | NegInf =>
          match exponent with PosInf => PosInf | _ => Fin 0 end
      | Fin b =>
          if Reqb (Rabs b) 1 then NaN
          else if Rltb 1 (Rabs b)
               then match exponent with PosInf => PosInf | _ => Fin 0 end
               else match exponent with PosInf => Fin 0 | _ => PosInf end
      end
  end.

End JS.

(* ================================================================== *)
(** ** Variant 1: [src/animation/easing.jsx] *)
(* ================================================================== *)

Module Jsx.

Import JS.
Local Open Scope js_scope.

Module EasingHelpers.

(** [ease(f, start, end)]: [t => start + f(t) * (end - start)]. *)
Definition ease (f : Number -> Number) (start end_ : Number)
  : Number -> Number :=
  fun t => start + f t * (end_ - start).

(** [toEaseOut(f)]: [t => 1 - f(1 - t)]. *)
Definition toEaseOut (f : Number -> Number) : Number -> Number :=
  fun t => Fin 1 - f (Fin 1 - t).

(** [toEaseInOut(f)]:
    [t => 0.5 * (t < 0.5 ? f(2 * t) : (2 - f(2 - 2 * t)))]. *)
Definition toEaseInOut (f : Number -> Number) : Number -> Number :=
  fun t =>
    Fin 0.5 * (if t <? Fin 0.5
               then f (Fin 2 * t)
               else Fin 2 - f (Fin 2 - Fin 2 * t)).

(** [squeeze(f, x1, x2)]:
    [t => (f(x1 + t*(x2-x1)) - f(x1)) / (f(x2) - f(x1))]. *)
Definition squeeze (f : Number -> Number) (x1 x2 : Number)
  : Number -> Number :=
  fun t => (f (x1 + t * (x2 - x1)) - f x1) / (f x2 - f x1).

End EasingHelpers.

Module Easing.

Definition linear (t : Number) : Number := t.

Definition quadIn (t : Number) : Number := t * t.
Definition quadOut (t : Number) : Number :=
  EasingHelpers.toEaseOut quadIn t.
Definition quadInOut (t : Number) : Number :=
  EasingHelpers.toEaseInOut quadIn t.

Definition cubicIn (t : Number) : Number := Math_pow t (Fin 3).
Definition cubicOut (t : Number) : Number :=
  EasingHelpers.toEaseOut cubicIn t.
Definition cubicInOut (t : Number) : Number :=
  EasingHelpers.toEaseInOut cubicIn t.

Definition makePolyIn (exponent : Number) : Number -> Number :=
  fun t => Math_pow t exponent.

(** [1 - Math.cos(t * Math.PI/2)] *)
Definition sinIn (t : Number) : Number :=
  Fin 1 - Math_cos (t * Math_PI / Fin 2).
Definition sinOut (t : Number) : Number :=
  EasingHelpers.toEaseOut sinIn t.
Definition sinInOut (t : Number) : Number :=
  EasingHelpers.toEaseInOut sinIn t.

(** [Math.pow(2, 10 * (t - 1))] *)
Definition expIn (t : Number) : Number :=
  Math_pow (Fin 2) (Fin 10 * (t - Fin 1)).
Definition expOut (t : Number) : Number :=
  EasingHelpers.toEaseOut expIn t.
Definition expInOut (t : Number) : Number :=
  EasingHelpers.toEaseInOut expIn t.

(** [1 - Math.sqrt(1 - t * t)] *)
Definition circleIn (t : Number) : Number :=
  Fin 1 - Math_sqrt (Fin 1 - t * t).
Definition circleOut (t : Number) : Number :=
  EasingHelpers.toEaseOut circleIn t.
Definition circleInOut (t : Number) : Number :=
  EasingHelpers.toEaseInOut circleIn t.

(** [x => x*x*((1+amplitude)*x-amplitude)] *)
Definition makeBackIn (amplitude : Number) : Number -> Number :=
  fun x => x * x * ((Fin 1 + amplitude) * x - amplitude).
Definition backIn (t : Number) : Number := makeBackIn (Fin 1.70158) t.
Definition backOut (t : Number) : Number :=
  EasingHelpers.toEaseOut backIn t.
Definition backInOut (t : Number) : Number :=
  EasingHelpers.toEaseInOut backIn t.

(** [makeElasticIn(springiness, numberOfSwings)] *)
Definition makeElasticIn (springiness numberOfSwings : Number)
  : Number -> Number :=
  let s := springiness in
  let n := Math_round numberOfSwings in
  fun x =>
    (Math_exp (s * x) - Fin 1.0) / (Math_exp s - Fin 1.0)
    * Math_sin ((Math_PI * Fin 2.0 * n + Math_PI * Fin 0.5) * x).

(** [Math.sin(13.0 * t * Math.PI/2) * Math.pow(2.0, 10.0 * (t - 1.0))] *)
Definition elasticIn (t : Number) : Number :=
  Math_sin (Fin 13.0 * t * Math_PI / Fin 2)
  * Math_pow (Fin 2.0) (Fin 10.0 * (t - Fin 1.0)).
Definition elasticOut (t : Number) : Number :=
  EasingHelpers.toEaseOut elasticIn t.
Definition elasticInOut (t : Number) : Number :=
  EasingHelpers.toEaseInOut elasticIn t.

(** [makeBounceIn(bounces, bounciness)], local variable by local
    variable; the reassignment of the parameter [bounciness] is the
    shadowing [let]. *)
Definition makeBounceIn (bounces bounciness : Number) : Number -> Number :=
  let bounciness :=
    if bounciness <=? Fin 1 then Fin 1.001 else bounciness in
  let pow := Math_pow bounciness bounces in
  let oneMinusBounciness := Fin 1.0 - bounciness in
  let sumOfUnits :=
    (Fin 1.0 - pow) / oneMinusBounciness + pow * Fin 0.5 in
  fun t =>
    let unitAtT := t * sumOfUnits in
    let bounceAtT :=
      Math_log (- unitAtT * (Fin 1.0 - bounciness) + Fin 1.0)
      / Math_log bounciness in
    let start := Math_floor bounceAtT in
    let end_ := start + Fin 1.0 in
    let startTime :=
      (Fin 1.0 - Math_pow bounciness start)
      / (oneMinusBounciness * sumOfUnits) in
    let endTime :=
      (Fin 1.0 - Math_pow bounciness end_)
      / (oneMinusBounciness * sumOfUnits) in
    let midTime := (startTime + endTime) * Fin 0.5 in
    let timeRelativeToPeak := t - midTime in
    let radius := midTime - startTime in
    let amplitude :=
      Math_pow (Fin 1.0 / bounciness) (bounces - start) in
    (- amplitude / (radius * radius))
    * (timeRelativeToPeak - radius) * (timeRelativeToPeak + radius).

(** [bounceOut]: the assignment [t -= c] inside a branch is the
    shadowing [let]; the tests see the original [t]. *)
Definition bounceOut (t : Number) : Number :=
  if t <? Fin 1 / Fin 2.75 then Fin 7.5625 * t * t
  else if t <? Fin 2 / Fin 2.75 then
    let t := t - Fin 1.5 / Fin 2.75 in
    Fin 7.5625 * t * t + Fin 0.75
  else if t <? Fin 2.5 / Fin 2.75 then
    let t := t - Fin 2.25 / Fin 2.75 in
    Fin 7.5625 * t * t + Fin 0.9375
  else
    let t := t - Fin 2.625 / Fin 2.75 in
    Fin 7.5625 * t * t + Fin 0.984375.

Definition bounceIn (t : Number) : Number :=
  EasingHelpers.toEaseOut bounceOut t.
Definition bounceInOut (t : Number) : Number :=
  EasingHelpers.toEaseInOut bounceIn t.

End Easing.

End Jsx.

(* ================================================================== *)
(** ** Variant 2: [function] expressions and the [make] object *)
(* ================================================================== *)

(** This variant also offers the helper [advance], which drives an
    animation state object with an easing function. *)

Module Legacy.

Import JS.
Local Open Scope js_scope.

Module helpers.

Definition ease (f : Number -> Number) (start end_ : Number)
  : Number -> Number :=
  fun t => start + f t * (end_ - start).

Definition toEaseOut (f : Number -> Number) : Number -> Number :=
  fun t => Fin 1 - f (Fin 1 - t).

Definition toEaseInOut (f : Number -> Number) : Number -> Number :=
  fun t =>
    Fin 0.5 * (if t <? Fin 0.5
               then f (Fin 2 * t)
               else Fin 2 - f (Fin 2 - Fin 2 * t)).

(** Here [f(x1)] is computed once, when [squeeze] is called:
    [var y1 = f(x1);
     return function(t) { return (f(x1 + t*(x2-x1)) - y1) / (f(x2) - y1); }] *)
Definition squeeze (f : Number -> Number) (x1 x2 : Number)
  : Number -> Number :=
  let y1 := f x1 in
  fun t => (f (x1 + t * (x2 - x1)) - y1) / (f x2 - y1).

(** The animation object that [advance] updates, with the three
    properties it reads or writes. *)
Record Anim : Type := mkAnim {
  value : Number;
  velocity : Number;
  finished : bool
}.

Definition set_velocity (a : Anim) (v : Number) : Anim :=
  mkAnim (value a) v (finished a).
Definition set_value (a : Anim) (v : Number) : Anim :=
  mkAnim v (velocity a) (finished a).
Definition set_finished (a : Anim) (b : bool) : Anim :=
  mkAnim (value a) (velocity a) b.

(** [advance(startTime, animDuration, easing)] returns a step function
    [(oldAnim, dt, now)] that assigns to the properties of [oldAnim] and
    returns it; the object after the assignments is the result here.
    The assignment [percentage = 1] is the shadowing [let]; the last
    test is [percentage === 1]. *)
Definition advance (startTime animDuration : Number)
  (easing : Number -> Number) : Anim -> Number -> Number -> Anim :=
  fun oldAnim dt now =>
    let percentage := (now - startTime) / animDuration in
    let percentage :=
      if percentage >=? Fin 1 then Fin 1 else percentage in
    let newValue := easing percentage in
    let oldAnim :=
      set_velocity oldAnim ((newValue - value oldAnim) / dt) in
    let oldAnim := set_value oldAnim newValue in
    let oldAnim :=
      if eqb percentage (Fin 1) then set_finished oldAnim true
      else oldAnim in
    oldAnim.

End helpers.

(** The object [make]; the source assigns it to [Easing.make] after
    [Easing] is built, and [Easing.backIn] reads it when called. *)
Module make.

Definition polyIn (exponent : Number) : Number -> Number :=
  fun t => Math_pow t exponent.

Definition backIn (amplitude : Number) : Number -> Number :=
  fun x => x * x * ((Fin 1 + amplitude) * x - amplitude).

Definition elasticIn (springiness numberOfSwings : Number)
  : Number -> Number :=
  let s := springiness in
  let n := Math_round numberOfSwings in
  fun x =>
    (Math_exp (s * x) - Fin 1.0) / (Math_exp s - Fin 1.0)
    * Math_sin ((Math_PI * Fin 2.0 * n + Math_PI * Fin 0.5) * x).

End make.

Module Easing.

Definition linear (t : Number) : Number := t.

Definition quadIn (t : Number) : Number := t * t.
Definition quadOut (t : Number) : Number := helpers.toEaseOut quadIn t.
Definition quadInOut (t : Number) : Number := helpers.toEaseInOut quadIn t.

Definition cubicIn (t : Number) : Number := Math_pow t (Fin 3).
Definition cubicOut (t : Number) : Number := helpers.toEaseOut cubicIn t.
Definition cubicInOut (t : Number) : Number :=
  helpers.toEaseInOut cubicIn t.

Definition sinIn (t : Number) : Number :=
  Fin 1 - Math_cos (t * Math_PI / Fin 2).
Definition sinOut (t : Number) : Number := helpers.toEaseOut sinIn t.
Definition sinInOut (t : Number) : Number := helpers.toEaseInOut sinIn t.

Definition expIn (t : Number) : Number :=
  Math_pow (Fin 2) (Fin 10 * (t - Fin 1)).
Definition expOut (t : Number) : Number := helpers.toEaseOut expIn t.
Definition expInOut (t : Number) : Number := helpers.toEaseInOut expIn t.

Definition circleIn (t : Number) : Number :=
  Fin 1 - Math_sqrt (Fin 1 - t * t).
Definition circleOut (t : Number) : Number := helpers.toEaseOut circleIn t.
Definition circleInOut (t : Number) : Number :=
  helpers.toEaseInOut circleIn t.

Definition backIn (t : Number) : Number := make.backIn (Fin 1.70158) t.
Definition backOut (t : Number) : Number := helpers.toEaseOut backIn t.
Definition backInOut (t : Number) : Number := helpers.toEaseInOut backIn t.

Definition elasticIn (t : Number) : Number :=
  Math_sin (Fin 13.0 * t * Math_PI / Fin 2)
  * Math_pow (Fin 2.0) (Fin 10.0 * (t - Fin 1.0)).
Definition elasticOut (t : Number) : Number :=
  helpers.toEaseOut elasticIn t.
Definition elasticInOut (t : Number) : Number :=
  helpers.toEaseInOut elasticIn t.

Definition bounceOut (t : Number) : Number :=
  if t <? Fin 1 / Fin 2.75 then Fin 7.5625 * t * t
  else if t <? Fin 2 / Fin 2.75 then
    let t := t - Fin 1.5 / Fin 2.75 in
    Fin 7.5625 * t * t + Fin 0.75
  else if t <? Fin 2.5 / Fin 2.75 then
    let t := t - Fin 2.25 / Fin 2.75 in
    Fin 7.5625 * t * t + Fin 0.9375
  else
    let t := t - Fin 2.625 / Fin 2.75 in
    Fin 7.5625 * t * t + Fin 0.984375.

Definition bounceIn (t : Number) : Number := helpers.toEaseOut bounceOut t.
Definition bounceInOut (t : Number) : Number :=
  helpers.toEaseInOut bounceIn t.

End Easing.

End Legacy.

(* ================================================================== *)
(** ** The formulas of the specification, over the reals *)
(* ================================================================== *)

Module Spec.

Local Open Scope R_scope.

Definition linear (t : R) : R := t.
Definition quadIn (t : R) : R := t ^ 2.
Definition cubicIn (t : R) : R := t ^ 3.
Definition sinIn (t : R) : R := 1 - cos (t * PI / 2).
Definition expIn (t : R) : R := Rpower 2 (10 * (t - 1)).

(** [1 - sqrt(1 - t^2)] has a value only where [1 - t^2] is not
    negative. *)
Definition circleIn (t : R) : option R :=
  if Rle_dec 0 (1 - t ^ 2) then Some (1 - sqrt (1 - t ^ 2)) else None.

Definition backIn (t : R) : R := t ^ 2 * ((1 + 1.70158) * t - 1.70158).
Definition elasticIn (t : R) : R :=
  sin (13 * t * PI / 2) * Rpower 2 (10 * (t - 1)).

(** The four segments of [bounceOut], tested in this order with [<]. *)
Definition bounceOut (t : R) : R :=
  if Rlt_dec t (1 / 2.75) then 7.5625 * t ^ 2
  else if Rlt_dec t (2 / 2.75) then
    7.5625 * (t - 1.5 / 2.75) ^ 2 + 0.75
  else if Rlt_dec t (2.5 / 2.75) then
    7.5625 * (t - 2.25 / 2.75) ^ 2 + 0.9375
  else 7.5625 * (t - 2.625 / 2.75) ^ 2 + 0.984375.

Definition bounceIn (t : R) : R := 1 - bounceOut (1 - t).

(** The curve of [makeElasticIn], for a springiness [s] and [n] swings;
    it has no value when the divisor [e^s - 1] is zero. *)
Definition elastic (s : R) (n : Z) (t : R) : option R :=
  if Req_dec_T (exp s - 1) 0 then None
  else Some ((exp (s * t) - 1) / (exp s - 1)
             * sin ((2 * PI * IZR n + PI / 2) * t)).

(** The nearest integer to [x]: an integer at distance at most one half,
    the upper one in case of a tie. *)
Definition nearest (x : R) (n : Z) : Prop :=
  IZR n - / 2 <= x < IZR n + / 2.

End Spec.

(** The real value of a number, when it has one. *)
Definition toReal (a : JS.Number) : option R :=
  match a with JS.Fin r => Some r | _ => None end.

(* ================================================================== *)
(** ** The local variables of [makeBounceIn], one definition each *)
(* ================================================================== *)

Module BounceIn.

Import JS.
Local Open Scope js_scope.

(** [if (bounciness <= 1) { bounciness = 1.001; }] *)
Definition clampBounciness (bounciness : Number) : Number :=
  if bounciness <=? Fin 1 then Fin 1.001 else bounciness.

(** [sumOfUnits], from the bounciness after the clamp. *)
Definition sumOfUnits (bounces bounciness : Number) : Number :=
  let pow := Math_pow bounciness bounces in
  let oneMinusBounciness := Fin 1.0 - bounciness in
  (Fin 1.0 - pow) / oneMinusBounciness + pow * Fin 0.5.

(** The argument of the logarithm in [bounceAtT]. *)
Definition logArgument (bounces bounciness t : Number) : Number :=
  let unitAtT := t * sumOfUnits bounces bounciness in
  - unitAtT * (Fin 1.0 - bounciness) + Fin 1.0.

(** The divisor in [bounceAtT]. *)
Definition logDivisor (bounciness : Number) : Number :=
  Math_log bounciness.

Definition bounceAtT (bounces bounciness t : Number) : Number :=
  Math_log (logArgument bounces bounciness t) / logDivisor bounciness.

(** What the returned function computes once [bounceAtT] is known. *)
Definition parabola (bounces bounciness bounceAtT t : Number) : Number :=
  let oneMinusBounciness := Fin 1.0 - bounciness in
  let sumOfUnits := sumOfUnits bounces bounciness in
  let start := Math_floor bounceAtT in
  let end_ := start + Fin 1.0 in
  let startTime :=
    (Fin 1.0 - Math_pow bounciness start)
    / (oneMinusBounciness * sumOfUnits) in
  let endTime :=
    (Fin 1.0 - Math_pow bounciness end_)
    / (oneMinusBounciness * sumOfUnits) in
  let midTime := (startTime + endTime) * Fin 0.5 in
  let timeRelativeToPeak := t - midTime in
  let radius := midTime - startTime in
  let amplitude :=
    Math_pow (Fin 1.0 / bounciness) (bounces - start) in
  (- amplitude / (radius * radius))
  * (timeRelativeToPeak - radius) * (timeRelativeToPeak + radius).

End BounceIn.

(* ================================================================== *)
(** ** Properties shared by the two variants *)
(* ================================================================== *)

Module Props.

Import JS.
Local Open Scope R_scope.

(** The base "In" functions compute the formulas of the specification. *)
Record BaseFormulas
  (linear quadIn cubicIn sinIn expIn circleIn backIn elasticIn
     bounceIn bounceOut : Number -> Number)
  (makeBackIn : Number -> Number -> Number) : Prop := {
  linear_formula : forall t : R, linear (Fin t) = Fin (Spec.linear t);
  quadIn_formula : forall t : R, quadIn (Fin t) = Fin (Spec.quadIn t);
  cubicIn_formula : forall t : R, cubicIn (Fin t) = Fin (Spec.cubicIn t);
  sinIn_formula : forall t : R, sinIn (Fin t) = Fin (Spec.sinIn t);
  expIn_formula : forall t : R, expIn (Fin t) = Fin (Spec.expIn t);
  circleIn_formula :
    forall t : R, toReal (circleIn (Fin t)) = Spec.circleIn t;
  circleIn_sqrt :
    forall t : R,
      circleIn (Fin t) = sub (Fin 1) (Math_sqrt (Fin (1 - t ^ 2)));
  backIn_formula : forall t : R, backIn (Fin t) = Fin (Spec.backIn t);
  backIn_make : forall t : Number, backIn t = makeBackIn (Fin 1.70158) t;
  elasticIn_formula :
    forall t : R, elasticIn (Fin t) = Fin (Spec.elasticIn t);
  bounceIn_formula :
    forall t : R, bounceIn (Fin t) = Fin (Spec.bounceIn t);
  bounceIn_bounceOut :
    forall t : R, bounceIn (Fin t) = sub (Fin 1) (bounceOut (Fin (1 - t)))
}.

(** [f] starts at 0 and ends at 1. *)
Definition Endpoints (f : Number -> Number) : Prop :=
  f (Fin 0) = Fin 0 /\ f (Fin 1) = Fin 1.

(** [xOut] and [xInOut] are the variants derived from [xIn]. *)
Definition Derived (xIn xOut xInOut : Number -> Number) : Prop :=
  (forall t : R, xOut (Fin t) = sub (Fin 1) (xIn (Fin (1 - t)))) /\
  (forall t : R, t < 0.5 ->
     xInOut (Fin t) = mul (Fin 0.5) (xIn (Fin (2 * t)))) /\
  (forall t : R, ~ t < 0.5 ->
     xInOut (Fin t)
     = mul (Fin 0.5) (sub (Fin 2) (xIn (Fin (2 - 2 * t))))) /\
  (xIn (Fin 1) = Fin 1 -> xInOut (Fin 0.5) = Fin 0.5).

(** [f] ends the first half of [toEaseInOut] where the second starts. *)
Definition Midpoint (xInOut : Number -> Number) : Prop :=
  xInOut (Fin 0.5) = Fin 0.5.

(** The contract of [squeeze]: the ends when [f] takes two different
    real values at [x1] and [x2], and the results when [f(x1) == f(x2)]. *)
Definition SqueezeContract
  (squeeze : (Number -> Number) -> Number -> Number -> Number -> Number)
  : Prop :=
  (forall (f : Number -> Number) (x1 x2 y1 y2 : R),
     f (Fin x1) = Fin y1 -> f (Fin x2) = Fin y2 -> y1 <> y2 ->
     squeeze f (Fin x1) (Fin x2) (Fin 0) = Fin 0 /\
     squeeze f (Fin x1) (Fin x2) (Fin 1) = Fin 1) /\
  (forall (f : Number -> Number) (x1 x2 : Number),
     eqb (f x1) (f x2) = true ->
     (isFinite (f x1) = true -> sub (f x2) (f x1) = Fin 0) /\
     forall t : Number, isFinite (squeeze f x1 x2 t) = false).

(** The contract of [makeElasticIn]. *)
Definition ElasticContract
  (makeElasticIn : Number -> Number -> Number -> Number) : Prop :=
  (forall x : R, exists n : Z,
     Math_round (Fin x) = Fin (IZR n) /\ Spec.nearest x n /\
     forall s t : R,
       toReal (makeElasticIn (Fin s) (Fin x) (Fin t)) = Spec.elastic s n t)
  /\
  (forall s t : Number,
     makeElasticIn s (Fin 2.6) t = makeElasticIn s (Fin 3) t).

(** Two functions return equal values on every input. *)
Definition Agree (f g : Number -> Number) : Prop :=
  forall t : Number, f t = g t.

End Props.

(* ================================================================== *)
(** ** The real values of the local variables of [makeBounceIn] *)
(* ================================================================== *)

Module BounceReal.

Local Open Scope R_scope.

(** The bounciness after the clamp. *)
Definition clamp (bounciness : R) : R :=
  if Rle_dec bounciness 1 then 1.001 else bounciness.

Definition sumOfUnits (b e : R) : R :=
  (1 - Rpower b e) / (1 - b) + Rpower b e * 0.5.

Definition logArgument (b e t : R) : R :=
  - (t * sumOfUnits b e) * (1 - b) + 1.

(** [start], the index of the bounce that contains [t]. *)
Definition segment (b e t : R) : Z :=
  Int_part (ln (logArgument b e t) / ln b).

(** [startTime] is [edge b e start], [endTime] is [edge b e (start + 1)]. *)
Definition edge (b e x : R) : R :=
  (1 - Rpower b x) / ((1 - b) * sumOfUnits b e).

(** The parabola of the bounce of index [k], at time [t]. *)
Definition arc (b e : R) (k : Z) (t : R) : R :=
  let startTime := edge b e (IZR k) in
  let endTime := edge b e (IZR k + 1) in
  let midTime := (startTime + endTime) * 0.5 in
  let timeRelativeToPeak := t - midTime in
  let radius := midTime - startTime in
  let amplitude := Rpower (1 / b) (e - IZR k) in
  (- amplitude / (radius * radius))
  * (timeRelativeToPeak - radius) * (timeRelativeToPeak + radius).

Definition curve (b e t : R) : R := arc b e (segment b e t) t.

End BounceReal.

(* ================================================================== *)
(** ** Shapes of results *)
(* ================================================================== *)

Module Shape.

Import JS.
Local Open Scope R_scope.

(** The number [a] is a real between [lo] and [hi]. *)
Definition realIn (lo hi : R) (a : Number) : Prop :=
  exists y : R, a = Fin y /\ lo <= y <= hi.

End Shape.

(* ================================================================== *)
(** ** Facts about the number model *)
(* ================================================================== *)

Module JSFacts.

Import JS.
Local Open Scope R_scope.

Lemma Rltb_true (x y : R) : x < y -> Rltb x y = true.
Proof. intro H; unfold Rltb; destruct (Rlt_dec x y); tauto. Qed.

Lemma Rltb_false (x y : R) : ~ x < y -> Rltb x y = false.
Proof. intro H; unfold Rltb; destruct (Rlt_dec x y); tauto. Qed.

Lemma Rleb_true (x y : R) : x <= y -> Rleb x y = true.
Proof. intro H; unfold Rleb; destruct (Rle_dec x y); tauto. Qed.

Lemma Rleb_false (x y : R) : ~ x <= y -> Rleb x y = false.
Proof. intro H; unfold Rleb; destruct (Rle_dec x y); tauto. Qed.

Lemma Reqb_true (x y : R) : x = y -> Reqb x y = true.
Proof. intro H; unfold Reqb; destruct (Req_dec_T x y); tauto. Qed.

Lemma Reqb_false (x y : R) : x <> y -> Reqb x y = false.
Proof. intro H; unfold Reqb; destruct (Req_dec_T x y); tauto. Qed.

Lemma Reqb_eq (x y : R) : Reqb x y = true -> x = y.
Proof. unfold Reqb; destruct (Req_dec_T x y); [trivial|discriminate]. Qed.

Lemma Int_part_IZR (z : Z) : Int_part (IZR z) = z.
Proof. symmetry; apply Int_part_spec; lra. Qed.

(** Equal finite numbers: it is enough to compare the reals. *)
Lemma Fin_eq (x y : R) : x = y -> Fin x = Fin y.
Proof. now intros ->. Qed.

(** [1 - (1 - a)] is [a], for every number. *)
Lemma sub_one_involutive (a : Number) : sub (Fin 1) (sub (Fin 1) a) = a.
Proof. destruct a as [x| | |]; simpl; trivial. apply Fin_eq; lra. Qed.

(** [Math.pow] at a positive base is the real power. *)
Lemma Math_pow_pos (b e : R) :
  0 < b -> Math_pow (Fin b) (Fin e) = Fin (Rpower b e).
Proof.
  intro Hb. unfold Math_pow.
  destruct (Req_dec_T e 0) as [->|He].
  - rewrite Reqb_true by trivial. apply Fin_eq.
    unfold Rpower. now rewrite Rmult_0_l, exp_0.
  - now rewrite (Reqb_false _ _ He), (Rltb_true _ _ Hb).
Qed.

(** [Math.pow(t, 3)] is the cube, whatever the sign of [t]. *)
Lemma Math_pow_3 (t : R) : Math_pow (Fin t) (Fin 3) = Fin (t ^ 3).
Proof.
  destruct (Rtotal_order 0 t) as [Hpos|[<-|Hneg]].
  - rewrite Math_pow_pos by trivial. apply Fin_eq.
    replace 3 with (INR 3) by (simpl; lra). now apply Rpower_pow.
  - unfold Math_pow. rewrite (Reqb_false 3 0) by lra.
    rewrite (Rltb_false 0 0) by lra. rewrite (Reqb_true 0 0) by trivial.
    rewrite (Rltb_true 0 3) by lra. apply Fin_eq; lra.
  - unfold Math_pow, isInteger. rewrite (Reqb_false 3 0) by lra.
    rewrite (Rltb_false 0 t) by lra. rewrite (Reqb_false t 0) by lra.
    rewrite Int_part_IZR. rewrite Reqb_true by trivial.
    apply Fin_eq. simpl. lra.
Qed.

End JSFacts.

(** Decide the comparisons of reals that occur in the goal, by linear
    arithmetic. *)
Ltac Rdecide :=
  repeat match goal with
  | |- context [JS.Rltb ?x ?y] =>
      first [ rewrite (JSFacts.Rltb_true x y) by lra
            | rewrite (JSFacts.Rltb_false x y) by lra ]
  | |- context [JS.Rleb ?x ?y] =>
      first [ rewrite (JSFacts.Rleb_true x y) by lra
            | rewrite (JSFacts.Rleb_false x y) by lra ]
  | |- context [JS.Reqb ?x ?y] =>
      first [ rewrite (JSFacts.Reqb_true x y) by lra
            | rewrite (JSFacts.Reqb_false x y) by lra ]
  end.

(** Evaluate the arithmetic of finite numbers, deciding the tests on
    the way. *)
Ltac js_eval :=
  repeat progress
    (cbn [JS.add JS.sub JS.mul JS.div JS.neg JS.lt JS.le JS.signed
          JS.Math_sin JS.Math_cos JS.Math_exp JS.Math_PI JS.isFinite
          toReal];
     Rdecide).

(** An equation between two finite numbers, closed by arithmetic. *)
Ltac js_arith := js_eval; apply JSFacts.Fin_eq; try lra; try nra.

(* ================================================================== *)
(** ** The combinators *)
(* ================================================================== *)

Section Combinators.

Import JS.
Local Open Scope R_scope.

Variable f : Number -> Number.

Lemma toEaseOut_real (t : R) :
  Jsx.EasingHelpers.toEaseOut f (Fin t) = sub (Fin 1) (f (Fin (1 - t))).
Proof. reflexivity. Qed.

Lemma toEaseInOut_lower (t : R) :
  t < 0.5 ->
  Jsx.EasingHelpers.toEaseInOut f (Fin t)
  = mul (Fin 0.5) (f (Fin (2 * t))).
Proof.
  intro H. unfold Jsx.EasingHelpers.toEaseInOut. now js_eval.
Qed.

Lemma toEaseInOut_upper (t : R) :
  ~ t < 0.5 ->
  Jsx.EasingHelpers.toEaseInOut f (Fin t)
  = mul (Fin 0.5) (sub (Fin 2) (f (Fin (2 - 2 * t)))).
Proof.
  intro H. unfold Jsx.EasingHelpers.toEaseInOut. now js_eval.
Qed.

Lemma toEaseInOut_middle :
  f (Fin 1) = Fin 1 ->
  Jsx.EasingHelpers.toEaseInOut f (Fin 0.5) = Fin 0.5.
Proof.
  intro H1. rewrite toEaseInOut_upper by lra.
  replace (2 - 2 * 0.5) with 1 by lra. rewrite H1. js_arith.
Qed.

Lemma derived_combinators :
  Props.Derived f (Jsx.EasingHelpers.toEaseOut f)
    (Jsx.EasingHelpers.toEaseInOut f).
Proof.
  repeat split.
  - apply toEaseInOut_lower.
  - apply toEaseInOut_upper.
  - apply toEaseInOut_middle.
Qed.

End Combinators.

(* ================================================================== *)
(** ** The base functions *)
(* ================================================================== *)

Section BaseFunctions.

Import JS JSFacts.
Local Open Scope R_scope.

Lemma quadIn_real (t : R) : Jsx.Easing.quadIn (Fin t) = Fin (t ^ 2).
Proof. unfold Jsx.Easing.quadIn. js_arith. Qed.

Lemma cubicIn_real (t : R) : Jsx.Easing.cubicIn (Fin t) = Fin (t ^ 3).
Proof. apply Math_pow_3. Qed.

Lemma sinIn_real (t : R) :
  Jsx.Easing.sinIn (Fin t) = Fin (1 - cos (t * PI / 2)).
Proof. unfold Jsx.Easing.sinIn. now js_eval. Qed.

Lemma expIn_real (t : R) :
  Jsx.Easing.expIn (Fin t) = Fin (Rpower 2 (10 * (t - 1))).
Proof.
  unfold Jsx.Easing.expIn. js_eval. apply Math_pow_pos; lra.
Qed.

Lemma circleIn_real (t : R) :
  toReal (Jsx.Easing.circleIn (Fin t)) = Spec.circleIn t.
Proof.
  unfold Jsx.Easing.circleIn, Spec.circleIn, Math_sqrt. js_eval.
  destruct (Rle_dec 0 (1 - t ^ 2)) as [Hle|Hgt].
  - rewrite Rltb_false by lra. js_eval.
    now replace (t * t) with (t ^ 2) by ring.
  - rewrite Rltb_true by lra. reflexivity.
Qed.

Lemma circleIn_sqrt_real (t : R) :
  Jsx.Easing.circleIn (Fin t) = sub (Fin 1) (Math_sqrt (Fin (1 - t ^ 2))).
Proof.
  unfold Jsx.Easing.circleIn. cbn [mul sub].
  now replace (t * t) with (t ^ 2) by ring.
Qed.

Lemma backIn_real (t : R) :
  Jsx.Easing.backIn (Fin t)
  = Fin (t ^ 2 * ((1 + 1.70158) * t - 1.70158)).
Proof. unfold Jsx.Easing.backIn, Jsx.Easing.makeBackIn. js_arith. Qed.

Lemma elasticIn_real (t : R) :
  Jsx.Easing.elasticIn (Fin t)
  = Fin (sin (13 * t * PI / 2) * Rpower 2 (10 * (t - 1))).
Proof.
  unfold Jsx.Easing.elasticIn. js_eval.
  rewrite Math_pow_pos by lra. js_eval.
  now replace 13.0 with 13 by lra; replace 10.0 with 10 by lra;
    replace 2.0 with 2 by lra; replace 1.0 with 1 by lra.
Qed.

(** [bounceOut] on a real is the four-segment function. *)
Lemma bounceOut_real (t : R) :
  Jsx.Easing.bounceOut (Fin t) = Fin (Spec.bounceOut t).
Proof.
  unfold Jsx.Easing.bounceOut, Spec.bounceOut.
  destruct (Rlt_dec t (1 / 2.75)) as [H1|H1]; [js_arith|].
  destruct (Rlt_dec t (2 / 2.75)) as [H2|H2]; [js_arith|].
  destruct (Rlt_dec t (2.5 / 2.75)) as [H3|H3]; js_arith.
Qed.

Lemma bounceIn_real (t : R) :
  Jsx.Easing.bounceIn (Fin t) = Fin (Spec.bounceIn t).
Proof.
  unfold Jsx.Easing.bounceIn. rewrite toEaseOut_real, bounceOut_real.
  reflexivity.
Qed.

Lemma base_formulas_jsx :
  Props.BaseFormulas
    Jsx.Easing.linear Jsx.Easing.quadIn Jsx.Easing.cubicIn
    Jsx.Easing.sinIn Jsx.Easing.expIn Jsx.Easing.circleIn
    Jsx.Easing.backIn Jsx.Easing.elasticIn Jsx.Easing.bounceIn
    Jsx.Easing.bounceOut Jsx.Easing.makeBackIn.
Proof.
  constructor.
  - reflexivity.
  - apply quadIn_real.
  - apply cubicIn_real.
  - apply sinIn_real.
  - apply expIn_real.
  - apply circleIn_real.
  - apply circleIn_sqrt_real.
  - apply backIn_real.
  - reflexivity.
  - apply elasticIn_real.
  - apply bounceIn_real.
  - reflexivity.
Qed.

End BaseFunctions.

(* ================================================================== *)
(** ** Values at the ends of the unit interval *)
(* ================================================================== *)

Section EndpointValues.

Import JS JSFacts.
Local Open Scope R_scope.

Lemma sin_13_PI2 : sin (13 * 1 * PI / 2) = 1.
Proof.
  replace (13 * 1 * PI / 2) with (PI / 2 + 2 * INR 3 * PI)
    by (simpl; lra).
  rewrite sin_period. apply sin_PI2.
Qed.

Lemma Spec_bounceOut_0 : Spec.bounceOut 0 = 0.
Proof.
  unfold Spec.bounceOut.
  destruct (Rlt_dec 0 (1 / 2.75)); lra.
Qed.

Lemma Spec_bounceOut_1 : Spec.bounceOut 1 = 1.
Proof.
  unfold Spec.bounceOut.
  destruct (Rlt_dec 1 (1 / 2.75)); [lra|].
  destruct (Rlt_dec 1 (2 / 2.75)); [lra|].
  destruct (Rlt_dec 1 (2.5 / 2.75)); lra.
Qed.

Lemma endpoints_linear : Props.Endpoints Jsx.Easing.linear.
Proof. split; reflexivity. Qed.

Lemma endpoints_quadIn : Props.Endpoints Jsx.Easing.quadIn.
Proof. split; rewrite quadIn_real; apply Fin_eq; lra. Qed.

Lemma endpoints_cubicIn : Props.Endpoints Jsx.Easing.cubicIn.
Proof. split; rewrite cubicIn_real; apply Fin_eq; lra. Qed.

Lemma endpoints_sinIn : Props.Endpoints Jsx.Easing.sinIn.
Proof.
  split; rewrite sinIn_real; apply Fin_eq.
  - replace (0 * PI / 2) with 0 by lra. rewrite cos_0. lra.
  - replace (1 * PI / 2) with (PI / 2) by lra. rewrite cos_PI2. lra.
Qed.

Lemma endpoints_circleIn : Props.Endpoints Jsx.Easing.circleIn.
Proof.
  split; unfold Jsx.Easing.circleIn, Math_sqrt; js_eval; apply Fin_eq.
  - replace (1 - 0 * 0) with 1 by lra. rewrite sqrt_1. lra.
  - replace (1 - 1 * 1) with 0 by lra. rewrite sqrt_0. lra.
Qed.

Lemma endpoints_backIn : Props.Endpoints Jsx.Easing.backIn.
Proof. split; rewrite backIn_real; apply Fin_eq; lra. Qed.

Lemma endpoints_elasticIn : Props.Endpoints Jsx.Easing.elasticIn.
Proof.
  split; rewrite elasticIn_real; apply Fin_eq.
  - replace (13 * 0 * PI / 2) with 0 by lra. rewrite sin_0. lra.
  - rewrite sin_13_PI2. replace (10 * (1 - 1)) with 0 by lra.
    rewrite Rpower_O by lra. lra.
Qed.

Lemma endpoints_bounceIn : Props.Endpoints Jsx.Easing.bounceIn.
Proof.
  split; rewrite bounceIn_real; apply Fin_eq; unfold Spec.bounceIn.
  - replace (1 - 0) with 1 by lra. rewrite Spec_bounceOut_1. lra.
  - replace (1 - 1) with 0 by lra. rewrite Spec_bounceOut_0. lra.
Qed.

Lemma expIn_1 : Jsx.Easing.expIn (Fin 1) = Fin 1.
Proof.
  rewrite expIn_real. apply Fin_eq.
  replace (10 * (1 - 1)) with 0 by lra. apply Rpower_O; lra.
Qed.

(** Every derived "InOut" function passes through (0.5, 0.5). *)
Lemma midpoints_jsx :
  Props.Midpoint Jsx.Easing.quadInOut /\
  Props.Midpoint Jsx.Easing.cubicInOut /\
  Props.Midpoint Jsx.Easing.sinInOut /\
  Props.Midpoint Jsx.Easing.expInOut /\
  Props.Midpoint Jsx.Easing.circleInOut /\
  Props.Midpoint Jsx.Easing.backInOut /\
  Props.Midpoint Jsx.Easing.elasticInOut.
Proof.
  repeat match goal with |- _ /\ _ => split end;
    apply toEaseInOut_middle.
  - apply endpoints_quadIn.
  - apply endpoints_cubicIn.
  - apply endpoints_sinIn.
  - apply expIn_1.
  - apply endpoints_circleIn.
  - apply endpoints_backIn.
  - apply endpoints_elasticIn.
Qed.

End EndpointValues.

(* ================================================================== *)
(** ** [squeeze] *)
(* ================================================================== *)

Section Squeeze.

Import JS JSFacts.
Local Open Scope R_scope.

Variable f : Number -> Number.
Variables x1 x2 : R.

Lemma squeeze_at_0 (y1 y2 : R) :
  f (Fin x1) = Fin y1 -> f (Fin x2) = Fin y2 -> y1 <> y2 ->
  Jsx.EasingHelpers.squeeze f (Fin x1) (Fin x2) (Fin 0) = Fin 0.
Proof.
  intros H1 H2 Hne. unfold Jsx.EasingHelpers.squeeze. js_eval.
  replace (x1 + 0 * (x2 - x1)) with x1 by lra.
  rewrite H1, H2. cbn [sub div].
  rewrite (Reqb_false (y2 - y1) 0) by (intro E; apply Hne; lra).
  apply Fin_eq. unfold Rminus at 1. rewrite Rplus_opp_r.
  unfold Rdiv. apply Rmult_0_l.
Qed.

Lemma squeeze_at_1 (y1 y2 : R) :
  f (Fin x1) = Fin y1 -> f (Fin x2) = Fin y2 -> y1 <> y2 ->
  Jsx.EasingHelpers.squeeze f (Fin x1) (Fin x2) (Fin 1) = Fin 1.
Proof.
  intros H1 H2 Hne. unfold Jsx.EasingHelpers.squeeze. js_eval.
  replace (x1 + 1 * (x2 - x1)) with x2 by lra.
  rewrite H1, H2. cbn [sub div].
  assert (Hd : y2 - y1 <> 0) by (intro E; apply Hne; lra).
  rewrite (Reqb_false _ _ Hd).
  apply Fin_eq. unfold Rdiv. now apply Rinv_r.
Qed.

(** Any number divided by a zero that comes from [y - y] is an infinity
    or [NaN]. *)
Lemma div_by_zero_not_finite (v : Number) (y : R) :
  isFinite (div (sub v (Fin y)) (Fin (y - y))) = false.
Proof.
  assert (Hz : y - y = 0) by lra.
  destruct v as [z| | |]; cbn [sub div].
  - rewrite (Reqb_true _ _ Hz).
    unfold Reqb, signed, Rltb.
    destruct (Req_dec_T (z - y) 0); [reflexivity|].
    destruct (Rlt_dec 0 (z - y)); reflexivity.
  - rewrite Rleb_true by lra. reflexivity.
  - rewrite Rleb_true by lra. reflexivity.
  - reflexivity.
Qed.

End Squeeze.

Section SqueezeDegenerate.

Import JS JSFacts.
Local Open Scope R_scope.

Lemma squeeze_degenerate (f : Number -> Number) (x1 x2 : Number) :
  eqb (f x1) (f x2) = true ->
  (isFinite (f x1) = true -> sub (f x2) (f x1) = Fin 0) /\
  forall t : Number,
    isFinite (Jsx.EasingHelpers.squeeze f x1 x2 t) = false.
Proof.
  intro Heq. unfold Jsx.EasingHelpers.squeeze.
  destruct (f x1) as [y1| | |], (f x2) as [y2| | |];
    try discriminate Heq.
  - apply Reqb_eq in Heq. subst y2. split.
    + intros _. apply Fin_eq. lra.
    + intro t. apply div_by_zero_not_finite.
  - split; [discriminate|].
    intro t. now destruct (f (add x1 (mul t (sub x2 x1)))).
  - split; [discriminate|].
    intro t. now destruct (f (add x1 (mul t (sub x2 x1)))).
Qed.

End SqueezeDegenerate.

Lemma squeeze_contract_jsx : Props.SqueezeContract Jsx.EasingHelpers.squeeze.
Proof.
  split.
  - intros f x1 x2 y1 y2 H1 H2 Hne. split.
    + now apply squeeze_at_0 with y1 y2.
    + now apply squeeze_at_1 with y1 y2.
  - apply squeeze_degenerate.
Qed.

(* ================================================================== *)
(** ** [makeElasticIn] *)
(* ================================================================== *)

Section Elastic.

Import JS JSFacts.
Local Open Scope R_scope.

Lemma Math_round_nearest (x : R) :
  Spec.nearest x (Int_part (x + / 2)).
Proof.
  unfold Spec.nearest. destruct (base_Int_part (x + / 2)). lra.
Qed.

Lemma Math_round_2_6 : Math_round (Fin 2.6) = Fin 3.
Proof.
  unfold Math_round. do 2 f_equal. symmetry. apply Int_part_spec. lra.
Qed.

Lemma Math_round_3 : Math_round (Fin 3) = Fin 3.
Proof.
  unfold Math_round. do 2 f_equal. symmetry. apply Int_part_spec. lra.
Qed.

Lemma Math_trunc_2_6 : Math_trunc (Fin 2.6) = Fin 2.
Proof.
  unfold Math_trunc. rewrite Rltb_false by lra.
  do 2 f_equal. symmetry. apply Int_part_spec. lra.
Qed.

Lemma exp_minus_1_zero (s : R) : exp s - 1 = 0 -> s = 0.
Proof.
  intro H. apply exp_inv. rewrite exp_0. lra.
Qed.

Lemma makeElasticIn_real (s x t : R) :
  toReal (Jsx.Easing.makeElasticIn (Fin s) (Fin x) (Fin t))
  = Spec.elastic s (Int_part (x + / 2)) t.
Proof.
  unfold Jsx.Easing.makeElasticIn, Spec.elastic, Math_round.
  cbn [Math_exp Math_PI mul sub add].
  destruct (Req_dec_T (exp s - 1) 0) as [Hz|Hnz].
  - assert (Hs : s = 0) by now apply exp_minus_1_zero.
    subst s. cbn [div].
    rewrite (Reqb_true (exp 0 - 1.0) 0) by lra.
    rewrite (Reqb_true (exp (0 * t) - 1.0) 0)
      by (rewrite Rmult_0_l, exp_0; lra).
    reflexivity.
  - cbn [div].
    rewrite (Reqb_false (exp s - 1.0) 0) by lra.
    cbn [Math_sin mul toReal]. f_equal.
    replace (PI * 2.0 * IZR (Int_part (x + / 2)) + PI * 0.5)
      with (2 * PI * IZR (Int_part (x + / 2)) + PI / 2) by lra.
    replace 1.0 with 1 by lra. reflexivity.
Qed.

Lemma elastic_contract_jsx : Props.ElasticContract Jsx.Easing.makeElasticIn.
Proof.
  split.
  - intro x. exists (Int_part (x + / 2)). split; [reflexivity|]. split.
    + apply Math_round_nearest.
    + intros s t. apply makeElasticIn_real.
  - intros s t. unfold Jsx.Easing.makeElasticIn.
    now rewrite Math_round_2_6, Math_round_3.
Qed.

End Elastic.

(* ================================================================== *)
(** ** [makeBounceIn]: the logarithms of the segment lookup *)
(* ================================================================== *)

Section BounceLookup.

Import JS JSFacts BounceIn.
Local Open Scope R_scope.

(** [makeBounceIn] is built from the pieces of module [BounceIn]. *)
Lemma makeBounceIn_pieces (bounces bounciness t : Number) :
  Jsx.Easing.makeBounceIn bounces bounciness t
  = parabola bounces (clampBounciness bounciness)
      (bounceAtT bounces (clampBounciness bounciness) t) t.
Proof.
  cbv beta zeta delta
    [Jsx.Easing.makeBounceIn parabola bounceAtT logDivisor logArgument
     sumOfUnits clampBounciness].
  reflexivity.
Qed.

Lemma clamp_low (bounciness : Number) :
  le bounciness (Fin 1) = true -> clampBounciness bounciness = Fin 1.001.
Proof. intro H. unfold clampBounciness. now rewrite H. Qed.

Lemma clamp_high (bounciness : Number) :
  le bounciness (Fin 1) = false -> clampBounciness bounciness = bounciness.
Proof. intro H. unfold clampBounciness. now rewrite H. Qed.

(** After the clamp a real bounciness is above 1. *)
Lemma clamp_real (b0 : R) :
  exists b : R, clampBounciness (Fin b0) = Fin b /\ 1 < b.
Proof.
  unfold clampBounciness. cbn [le]. unfold Rleb.
  destruct (Rle_dec b0 1).
  - exists 1.001. split; [reflexivity|lra].
  - exists b0. split; [reflexivity|lra].
Qed.

Lemma Rpower_above_1 (b e : R) : 1 < b -> 0 < e -> 1 < Rpower b e.
Proof.
  intros Hb He. rewrite <- (Rpower_O b) by lra. now apply Rpower_lt.
Qed.

(** [sumOfUnits] is a positive real. *)
Lemma sumOfUnits_real (b e : R) :
  1 < b -> 0 < e ->
  exists S : R,
    sumOfUnits (Fin e) (Fin b) = Fin S /\ 0 < S.
Proof.
  intros Hb He. unfold sumOfUnits.
  rewrite Math_pow_pos by lra.
  pose proof (Rpower_above_1 _ _ Hb He) as HP.
  set (P := Rpower b e) in *.
  cbn [sub div]. rewrite (Reqb_false (1.0 - b) 0) by lra.
  cbn [mul add]. eexists. split; [reflexivity|].
  assert (Hq : 0 < (1.0 - P) / (1.0 - b)).
  { replace 1.0 with 1 by lra.
    replace ((1 - P) / (1 - b)) with ((P - 1) / (b - 1))
      by (field; lra).
    apply Rdiv_lt_0_compat; lra. }
  lra.
Qed.

(** The argument of the logarithm is at least 1 on the unit interval. *)
Lemma logArgument_real (b e t : R) :
  1 < b -> 0 < e -> 0 <= t <= 1 ->
  exists a : R,
    logArgument (Fin e) (Fin b) (Fin t) = Fin a /\ 1 <= a.
Proof.
  intros Hb He Ht. unfold logArgument.
  destruct (sumOfUnits_real _ _ Hb He) as (S & -> & HS).
  cbn [mul neg sub add]. eexists. split; [reflexivity|].
  assert (0 <= t * S) by (apply Rmult_le_pos; lra).
  assert (0 <= t * S * (b - 1)) by (apply Rmult_le_pos; lra).
  nra.
Qed.

Lemma Math_log_pos (a : R) : 0 < a -> Math_log (Fin a) = Fin (ln a).
Proof.
  intro Ha. unfold Math_log.
  now rewrite Rltb_false, Reqb_false by lra.
Qed.

Lemma bounce_lookup_safe (b0 e t : R) :
  0 < e -> 0 <= t <= 1 ->
  exists b a d : R,
    clampBounciness (Fin b0) = Fin b /\ 1 < b /\
    logArgument (Fin e) (Fin b) (Fin t) = Fin a /\ 0 < a /\
    logDivisor (Fin b) = Fin d /\ d <> 0 /\
    bounceAtT (Fin e) (Fin b) (Fin t) = Fin (ln a / d).
Proof.
  intros He Ht.
  destruct (clamp_real b0) as (b & Hc & Hb).
  destruct (logArgument_real _ _ _ Hb He Ht) as (a & Ha & Ha1).
  assert (Hd : ln b <> 0) by (apply ln_neq_0; lra).
  exists b, a, (ln b). unfold bounceAtT, logDivisor.
  rewrite Ha, !Math_log_pos by lra. cbn [div].
  rewrite (Reqb_false _ _ Hd).
  repeat split; trivial. lra.
Qed.

End BounceLookup.

(* ================================================================== *)
(** ** Values at sample points *)
(* ================================================================== *)

Section Samples.

Import JS JSFacts.
Local Open Scope R_scope.

Example quadIn_half : Jsx.Easing.quadIn (Fin 0.5) = Fin 0.25.
Proof. rewrite quadIn_real. apply Fin_eq. lra. Qed.

Example cubicOut_half : Jsx.Easing.cubicOut (Fin 0.5) = Fin 0.875.
Proof.
  unfold Jsx.Easing.cubicOut. rewrite toEaseOut_real, cubicIn_real.
  js_arith.
Qed.

Example linear_sample : Jsx.Easing.linear (Fin 0.3) = Fin 0.3.
Proof. reflexivity. Qed.

Example bounceOut_half : Jsx.Easing.bounceOut (Fin 0.5) = Fin 0.765625.
Proof.
  rewrite bounceOut_real. apply Fin_eq. unfold Spec.bounceOut.
  destruct (Rlt_dec 0.5 (1 / 2.75)); [lra|].
  destruct (Rlt_dec 0.5 (2 / 2.75)); lra.
Qed.

(** At a threshold the later segment is taken; the two segments meet
    there. *)
Example bounceOut_first_threshold :
  Jsx.Easing.bounceOut (Fin (1 / 2.75))
  = Fin (7.5625 * (1 / 2.75 - 1.5 / 2.75) ^ 2 + 0.75) /\
  7.5625 * (1 / 2.75 - 1.5 / 2.75) ^ 2 + 0.75 = 7.5625 * (1 / 2.75) ^ 2.
Proof.
  split; [|lra]. rewrite bounceOut_real. apply Fin_eq.
  unfold Spec.bounceOut.
  destruct (Rlt_dec (1 / 2.75) (1 / 2.75)); [lra|].
  destruct (Rlt_dec (1 / 2.75) (2 / 2.75)); lra.
Qed.

(** [expIn] does not start at 0. *)
Example expIn_0 :
  exists y : R, Jsx.Easing.expIn (Fin 0) = Fin y /\ 0 < y.
Proof.
  exists (Rpower 2 (10 * (0 - 1))). split; [apply expIn_real|].
  apply exp_pos.
Qed.

(** Outside [-1, 1] the square root of [circleIn] has no real value. *)
Example circleIn_2 : Jsx.Easing.circleIn (Fin 2) = NaN.
Proof.
  unfold Jsx.Easing.circleIn, Math_sqrt. now js_eval.
Qed.

Example Math_pow_negative_base :
  Math_pow (Fin (-2)) (Fin 3) = Fin (-8).
Proof. rewrite Math_pow_3. apply Fin_eq. lra. Qed.

End Samples.

(* ================================================================== *)
(** ** The properties of the specification *)
(* ================================================================== *)

Section Claims.

Import JS JSFacts.
Local Open Scope R_scope.

(** C1.  For every real [t] the base easing functions of both variants
    compute the formulas of the specification: [linear t = t],
    [quadIn t = t^2], [cubicIn t = t^3], [sinIn t = 1 - cos (t*pi/2)],
    [expIn t = 2^(10*(t-1))], [circleIn t = 1 - sqrt (1 - t^2)] (a real
    exactly where the square root is one), [backIn t =
    t^2*((1+1.70158)*t - 1.70158)], which is [makeBackIn 1.70158 t],
    [elasticIn t = sin (13*t*pi/2) * 2^(10*(t-1))] and
    [bounceIn t = 1 - bounceOut (1 - t)]. *)
Theorem base_easing_formulas :
  Props.BaseFormulas
    Jsx.Easing.linear Jsx.Easing.quadIn Jsx.Easing.cubicIn
    Jsx.Easing.sinIn Jsx.Easing.expIn Jsx.Easing.circleIn
    Jsx.Easing.backIn Jsx.Easing.elasticIn Jsx.Easing.bounceIn
    Jsx.Easing.bounceOut Jsx.Easing.makeBackIn
  /\
  Props.BaseFormulas
    Legacy.Easing.linear Legacy.Easing.quadIn Legacy.Easing.cubicIn
    Legacy.Easing.sinIn Legacy.Easing.expIn Legacy.Easing.circleIn
    Legacy.Easing.backIn Legacy.Easing.elasticIn Legacy.Easing.bounceIn
    Legacy.Easing.bounceOut Legacy.make.backIn.
Proof. split; exact base_formulas_jsx. Qed.

(** C2.  For every real [t], [bounceOut t] is the four-segment
    piecewise quadratic of the specification, its three thresholds
    tested in order with a strict [<]. *)
Theorem bounceOut_four_segments (t : R) :
  Jsx.Easing.bounceOut (Fin t) = Fin (Spec.bounceOut t) /\
  Legacy.Easing.bounceOut (Fin t) = Fin (Spec.bounceOut t).
Proof. split; exact (bounceOut_real t). Qed.

(** C3.  Each of [linear], [quadIn], [cubicIn], [sinIn], [circleIn],
    [backIn], [elasticIn] and [bounceIn] maps 0 to 0 and 1 to 1. *)
Theorem standard_in_functions_endpoints :
  (Props.Endpoints Jsx.Easing.linear /\
   Props.Endpoints Jsx.Easing.quadIn /\
   Props.Endpoints Jsx.Easing.cubicIn /\
   Props.Endpoints Jsx.Easing.sinIn /\
   Props.Endpoints Jsx.Easing.circleIn /\
   Props.Endpoints Jsx.Easing.backIn /\
   Props.Endpoints Jsx.Easing.elasticIn /\
   Props.Endpoints Jsx.Easing.bounceIn)
  /\
  (Props.Endpoints Legacy.Easing.linear /\
   Props.Endpoints Legacy.Easing.quadIn /\
   Props.Endpoints Legacy.Easing.cubicIn /\
   Props.Endpoints Legacy.Easing.sinIn /\
   Props.Endpoints Legacy.Easing.circleIn /\
   Props.Endpoints Legacy.Easing.backIn /\
   Props.Endpoints Legacy.Easing.elasticIn /\
   Props.Endpoints Legacy.Easing.bounceIn).
Proof.
  split.
  - exact (conj endpoints_linear (conj endpoints_quadIn
      (conj endpoints_cubicIn (conj endpoints_sinIn
        (conj endpoints_circleIn (conj endpoints_backIn
          (conj endpoints_elasticIn endpoints_bounceIn))))))).
  - exact (conj endpoints_linear (conj endpoints_quadIn
      (conj endpoints_cubicIn (conj endpoints_sinIn
        (conj endpoints_circleIn (conj endpoints_backIn
          (conj endpoints_elasticIn endpoints_bounceIn))))))).
Qed.

(** C4.  For each base function [xIn] among quad, cubic, sin, exp,
    circle, back and elastic, and every real [t]:
    [xOut t = 1 - xIn (1 - t)]; [xInOut t = 0.5 * xIn (2t)] when
    [t < 0.5] and [0.5 * (2 - xIn (2 - 2t))] otherwise; and
    [xInOut 0.5 = 0.5] whenever [xIn 1 = 1], which is the case of each
    of the seven. *)
Theorem derived_out_and_inout_variants :
  (Props.Derived Jsx.Easing.quadIn Jsx.Easing.quadOut
     Jsx.Easing.quadInOut /\
   Props.Derived Jsx.Easing.cubicIn Jsx.Easing.cubicOut
     Jsx.Easing.cubicInOut /\
   Props.Derived Jsx.Easing.sinIn Jsx.Easing.sinOut
     Jsx.Easing.sinInOut /\
   Props.Derived Jsx.Easing.expIn Jsx.Easing.expOut
     Jsx.Easing.expInOut /\
   Props.Derived Jsx.Easing.circleIn Jsx.Easing.circleOut
     Jsx.Easing.circleInOut /\
   Props.Derived Jsx.Easing.backIn Jsx.Easing.backOut
     Jsx.Easing.backInOut /\
   Props.Derived Jsx.Easing.elasticIn Jsx.Easing.elasticOut
     Jsx.Easing.elasticInOut)
  /\
  (Props.Derived Legacy.Easing.quadIn Legacy.Easing.quadOut
     Legacy.Easing.quadInOut /\
   Props.Derived Legacy.Easing.cubicIn Legacy.Easing.cubicOut
     Legacy.Easing.cubicInOut /\
   Props.Derived Legacy.Easing.sinIn Legacy.Easing.sinOut
     Legacy.Easing.sinInOut /\
   Props.Derived Legacy.Easing.expIn Legacy.Easing.expOut
     Legacy.Easing.expInOut /\
   Props.Derived Legacy.Easing.circleIn Legacy.Easing.circleOut
     Legacy.Easing.circleInOut /\
   Props.Derived Legacy.Easing.backIn Legacy.Easing.backOut
     Legacy.Easing.backInOut /\
   Props.Derived Legacy.Easing.elasticIn Legacy.Easing.elasticOut
     Legacy.Easing.elasticInOut)
  /\
  (Props.Midpoint Jsx.Easing.quadInOut /\
   Props.Midpoint Jsx.Easing.cubicInOut /\
   Props.Midpoint Jsx.Easing.sinInOut /\
   Props.Midpoint Jsx.Easing.expInOut /\
   Props.Midpoint Jsx.Easing.circleInOut /\
   Props.Midpoint Jsx.Easing.backInOut /\
   Props.Midpoint Jsx.Easing.elasticInOut)
  /\
  (Props.Midpoint Legacy.Easing.quadInOut /\
   Props.Midpoint Legacy.Easing.cubicInOut /\
   Props.Midpoint Legacy.Easing.sinInOut /\
   Props.Midpoint Legacy.Easing.expInOut /\
   Props.Midpoint Legacy.Easing.circleInOut /\
   Props.Midpoint Legacy.Easing.backInOut /\
   Props.Midpoint Legacy.Easing.elasticInOut).
Proof.
  split; [|split; [|split; exact midpoints_jsx]].
  - repeat match goal with |- _ /\ _ => split end;
      apply derived_combinators.
  - repeat match goal with |- _ /\ _ => split end;
      apply (derived_combinators _).
Qed.

Lemma derived_out_and_inout_variants_witness :
  Jsx.Easing.quadInOut (Fin 0.25)
  = mul (Fin 0.5) (Jsx.Easing.quadIn (Fin (2 * 0.25))) /\
  Jsx.Easing.quadInOut (Fin 0.75)
  = mul (Fin 0.5) (sub (Fin 2) (Jsx.Easing.quadIn (Fin (2 - 2 * 0.75))))
  /\
  Jsx.Easing.quadInOut (Fin 0.5) = Fin 0.5.
Proof.
  destruct derived_out_and_inout_variants
    as (((_ & Hlow & Hup & Hmid) & _) & _).
  split; [apply Hlow; lra|]. split; [apply Hup; lra|].
  apply Hmid. rewrite quadIn_real. apply Fin_eq. lra.
Defined.

(** C5.  [makeBounceIn] computes with the clamped bounciness, which is
    1.001 whenever the given one is [<= 1] and the given one otherwise;
    and with the clamped
    bounciness, for every [t] in [0,1] and every integer [bounces >= 1],
    the argument of the logarithm of the segment lookup is a positive
    real and the divisor [log bounciness] is a real other than zero, so
    that [bounceAtT] is the real quotient of the two logarithms. *)
Theorem makeBounceIn_lookup_is_safe :
  (forall bounces bounciness t : Number,
     Jsx.Easing.makeBounceIn bounces bounciness t
     = BounceIn.parabola bounces (BounceIn.clampBounciness bounciness)
         (BounceIn.bounceAtT bounces
            (BounceIn.clampBounciness bounciness) t) t) /\
  (forall bounciness : Number,
     le bounciness (Fin 1) = true ->
     BounceIn.clampBounciness bounciness = Fin 1.001) /\
  (forall bounciness : Number,
     le bounciness (Fin 1) = false ->
     BounceIn.clampBounciness bounciness = bounciness) /\
  (forall (bounciness : R) (bounces : Z) (t : R),
     (1 <= bounces)%Z -> 0 <= t <= 1 ->
     exists b a d : R,
       BounceIn.clampBounciness (Fin bounciness) = Fin b /\ 1 < b /\
       BounceIn.logArgument (Fin (IZR bounces)) (Fin b) (Fin t) = Fin a /\
       0 < a /\
       BounceIn.logDivisor (Fin b) = Fin d /\ d <> 0 /\
       BounceIn.bounceAtT (Fin (IZR bounces)) (Fin b) (Fin t)
       = Fin (ln a / d)).
Proof.
  split; [exact makeBounceIn_pieces|]. split; [exact clamp_low|].
  split; [exact clamp_high|].
  intros b0 n t Hn Ht. apply bounce_lookup_safe; trivial.
  apply IZR_lt. lia.
Qed.

Lemma makeBounceIn_lookup_is_safe_witness :
  BounceIn.clampBounciness (Fin 0.5) = Fin 1.001 /\
  BounceIn.clampBounciness (Fin 2) = Fin 2 /\
  exists b a d : R,
    BounceIn.clampBounciness (Fin 0.5) = Fin b /\ 1 < b /\
    BounceIn.logArgument (Fin (IZR 2)) (Fin b) (Fin 0.5) = Fin a /\
    0 < a /\
    BounceIn.logDivisor (Fin b) = Fin d /\ d <> 0 /\
    BounceIn.bounceAtT (Fin (IZR 2)) (Fin b) (Fin 0.5) = Fin (ln a / d).
Proof.
  destruct makeBounceIn_lookup_is_safe as (_ & Hclamp & Hkeep & Hsafe).
  split; [|split].
  - apply Hclamp. cbn [le]. apply Rleb_true. lra.
  - apply Hkeep. cbn [le]. apply Rleb_false. lra.
  - apply Hsafe; [lia | lra].
Defined.

(** C6.  For every function [f] and reals [x1], [x2] at which [f]
    takes different real values, [squeeze f x1 x2] maps 0 to 0 and 1 to
    1; and when [f(x1) == f(x2)] the divisor is zero (for a real
    value; it is [NaN] for an infinite one) and every value of
    [squeeze f x1 x2] is an infinity or [NaN]: the division does not
    fail, it returns a number that is not finite. *)
Theorem squeeze_contract :
  Props.SqueezeContract Jsx.EasingHelpers.squeeze /\
  Props.SqueezeContract Legacy.helpers.squeeze.
Proof. split; exact squeeze_contract_jsx. Qed.

Lemma squeeze_contract_witness :
  (Jsx.EasingHelpers.squeeze Jsx.Easing.quadIn (Fin 0) (Fin 2) (Fin 0)
   = Fin 0 /\
   Jsx.EasingHelpers.squeeze Jsx.Easing.quadIn (Fin 0) (Fin 2) (Fin 1)
   = Fin 1) /\
  isFinite
    (Jsx.EasingHelpers.squeeze Jsx.Easing.quadIn (Fin (-1)) (Fin 1)
       (Fin 0.5)) = false.
Proof.
  destruct squeeze_contract as ((Hends & Hdeg) & _).
  split.
  - apply (Hends Jsx.Easing.quadIn 0 2 0 4).
    + rewrite quadIn_real. apply Fin_eq. lra.
    + rewrite quadIn_real. apply Fin_eq. lra.
    + lra.
  - apply (Hdeg Jsx.Easing.quadIn (Fin (-1)) (Fin 1)).
    rewrite !quadIn_real. cbn [eqb]. apply Reqb_true. lra.
Defined.

(** C7.  [makeElasticIn springiness numberOfSwings] rounds
    [numberOfSwings] to the nearest integer [n] and returns the function
    [t |-> (e^(s*t) - 1)/(e^s - 1) * sin ((2*pi*n + pi/2)*t)]; so
    [makeElasticIn s 2.6] and [makeElasticIn s 3] are equal at every
    point, for every springiness [s]. *)
Theorem makeElasticIn_rounds_swings :
  (Props.ElasticContract Jsx.Easing.makeElasticIn /\
   Props.ElasticContract Legacy.make.elasticIn) /\
  Math_round (Fin 2.6) = Fin 3 /\ Math_trunc (Fin 2.6) = Fin 2.
Proof.
  split; [split; exact elastic_contract_jsx|].
  split; [exact Math_round_2_6 | exact Math_trunc_2_6].
Qed.

(** C8.  The two variants implement the same functions: every
    combinator, every named easing function and every factory defined
    in both returns equal values on all inputs. *)
Theorem variants_agree :
  (forall f start end_,
     Props.Agree (Jsx.EasingHelpers.ease f start end_)
       (Legacy.helpers.ease f start end_)) /\
  (forall f,
     Props.Agree (Jsx.EasingHelpers.toEaseOut f)
       (Legacy.helpers.toEaseOut f)) /\
  (forall f,
     Props.Agree (Jsx.EasingHelpers.toEaseInOut f)
       (Legacy.helpers.toEaseInOut f)) /\
  (forall f x1 x2,
     Props.Agree (Jsx.EasingHelpers.squeeze f x1 x2)
       (Legacy.helpers.squeeze f x1 x2)) /\
  Props.Agree Jsx.Easing.linear Legacy.Easing.linear /\
  Props.Agree Jsx.Easing.quadIn Legacy.Easing.quadIn /\
  Props.Agree Jsx.Easing.quadOut Legacy.Easing.quadOut /\
  Props.Agree Jsx.Easing.quadInOut Legacy.Easing.quadInOut /\
  Props.Agree Jsx.Easing.cubicIn Legacy.Easing.cubicIn /\
  Props.Agree Jsx.Easing.cubicOut Legacy.Easing.cubicOut /\
  Props.Agree Jsx.Easing.cubicInOut Legacy.Easing.cubicInOut /\
  Props.Agree Jsx.Easing.sinIn Legacy.Easing.sinIn /\
  Props.Agree Jsx.Easing.sinOut Legacy.Easing.sinOut /\
  Props.Agree Jsx.Easing.sinInOut Legacy.Easing.sinInOut /\
  Props.Agree Jsx.Easing.expIn Legacy.Easing.expIn /\
  Props.Agree Jsx.Easing.expOut Legacy.Easing.expOut /\
  Props.Agree Jsx.Easing.expInOut Legacy.Easing.expInOut /\
  Props.Agree Jsx.Easing.circleIn Legacy.Easing.circleIn /\
  Props.Agree Jsx.Easing.circleOut Legacy.Easing.circleOut /\
  Props.Agree Jsx.Easing.circleInOut Legacy.Easing.circleInOut /\
  Props.Agree Jsx.Easing.backIn Legacy.Easing.backIn /\
  Props.Agree Jsx.Easing.backOut Legacy.Easing.backOut /\
  Props.Agree Jsx.Easing.backInOut Legacy.Easing.backInOut /\
  Props.Agree Jsx.Easing.elasticIn Legacy.Easing.elasticIn /\
  Props.Agree Jsx.Easing.elasticOut Legacy.Easing.elasticOut /\
  Props.Agree Jsx.Easing.elasticInOut Legacy.Easing.elasticInOut /\
  Props.Agree Jsx.Easing.bounceIn Legacy.Easing.bounceIn /\
  Props.Agree Jsx.Easing.bounceOut Legacy.Easing.bounceOut /\
  Props.Agree Jsx.Easing.bounceInOut Legacy.Easing.bounceInOut /\
  (forall exponent,
     Props.Agree (Jsx.Easing.makePolyIn exponent)
       (Legacy.make.polyIn exponent)) /\
  (forall amplitude,
     Props.Agree (Jsx.Easing.makeBackIn amplitude)
       (Legacy.make.backIn amplitude)) /\
  (forall springiness numberOfSwings,
     Props.Agree (Jsx.Easing.makeElasticIn springiness numberOfSwings)
       (Legacy.make.elasticIn springiness numberOfSwings)).
Proof.
  repeat match goal with |- _ /\ _ => split end;
    unfold Props.Agree; intros; reflexivity.
Qed.

(** C9.  The identity is a fixed point of [toEaseInOut]: for every real
    [t], [toEaseInOut linear t = t]. *)
Theorem toEaseInOut_linear (t : R) :
  Jsx.EasingHelpers.toEaseInOut Jsx.Easing.linear (Fin t) = Fin t /\
  Legacy.helpers.toEaseInOut Legacy.Easing.linear (Fin t) = Fin t.
Proof.
  assert (H : Jsx.EasingHelpers.toEaseInOut Jsx.Easing.linear (Fin t)
              = Fin t).
  { destruct (Rlt_dec t 0.5) as [Hlt|Hge].
    - rewrite toEaseInOut_lower by trivial.
      unfold Jsx.Easing.linear. js_arith.
    - rewrite toEaseInOut_upper by trivial.
      unfold Jsx.Easing.linear. js_arith. }
  split; exact H.
Qed.

(** C10.  [toEaseOut] is an involution: for every function [f] and
    every argument [t], [toEaseOut (toEaseOut f) t = f t]. *)
Theorem toEaseOut_involutive (f : Number -> Number) (t : Number) :
  Jsx.EasingHelpers.toEaseOut (Jsx.EasingHelpers.toEaseOut f) t = f t /\
  Legacy.helpers.toEaseOut (Legacy.helpers.toEaseOut f) t = f t.
Proof.
  split.
  - unfold Jsx.EasingHelpers.toEaseOut.
    now rewrite !sub_one_involutive.
  - unfold Legacy.helpers.toEaseOut.
    now rewrite !sub_one_involutive.
Qed.

End Claims.

(* ================================================================== *)
(** ** Further properties of the combinators *)
(* ================================================================== *)

Section CombinatorLaws.

Import JS JSFacts.
Local Open Scope R_scope.

Variable f : Number -> Number.

(** [ease f start end] starts at [start] and ends at [end] when [f]
    starts at 0 and ends at 1. *)
Theorem ease_endpoints (a b : R) :
  Props.Endpoints f ->
  Jsx.EasingHelpers.ease f (Fin a) (Fin b) (Fin 0) = Fin a /\
  Jsx.EasingHelpers.ease f (Fin a) (Fin b) (Fin 1) = Fin b.
Proof.
  intros [H0 H1]. unfold Jsx.EasingHelpers.ease.
  rewrite H0, H1. split; js_arith.
Qed.

(** Two nested [ease] are one [ease] between the images of the inner
    bounds, wherever [f] has a real value. *)
Theorem ease_nested (a b c d y : R) (t : Number) :
  f t = Fin y ->
  Jsx.EasingHelpers.ease
    (Jsx.EasingHelpers.ease f (Fin a) (Fin b)) (Fin c) (Fin d) t
  = Jsx.EasingHelpers.ease f
      (Fin (c + a * (d - c))) (Fin (c + b * (d - c))) t.
Proof.
  intro H. unfold Jsx.EasingHelpers.ease. rewrite H. js_arith.
Qed.

(** Easing out from [a] to [b] is easing in from [b] to [a] with the
    time reversed. *)
Theorem ease_toEaseOut_reverses (a b t y : R) :
  f (Fin (1 - t)) = Fin y ->
  Jsx.EasingHelpers.ease (Jsx.EasingHelpers.toEaseOut f)
    (Fin a) (Fin b) (Fin t)
  = Jsx.EasingHelpers.ease f (Fin b) (Fin a) (Fin (1 - t)).
Proof.
  intro H. unfold Jsx.EasingHelpers.ease, Jsx.EasingHelpers.toEaseOut.
  cbn [sub]. rewrite H. js_arith.
Qed.

Lemma toEaseOut_ends_real (y0 y1 : R) :
  f (Fin 0) = Fin y0 -> f (Fin 1) = Fin y1 ->
  Jsx.EasingHelpers.toEaseOut f (Fin 0) = Fin (1 - y1) /\
  Jsx.EasingHelpers.toEaseOut f (Fin 1) = Fin (1 - y0).
Proof.
  intros H0 H1. rewrite !toEaseOut_real.
  replace (1 - 0) with 1 by lra. replace (1 - 1) with 0 by lra.
  now rewrite H0, H1.
Qed.

Lemma toEaseInOut_ends_real (y0 y1 : R) :
  f (Fin 0) = Fin y0 -> f (Fin 1) = Fin y1 ->
  Jsx.EasingHelpers.toEaseInOut f (Fin 0) = Fin (y0 / 2) /\
  Jsx.EasingHelpers.toEaseInOut f (Fin 1) = Fin (1 - y0 / 2) /\
  Jsx.EasingHelpers.toEaseInOut f (Fin 0.5) = Fin (1 - y1 / 2).
Proof.
  intros H0 H1. split; [|split].
  - rewrite toEaseInOut_lower by lra.
    replace (2 * 0) with 0 by lra. rewrite H0. js_arith.
  - rewrite toEaseInOut_upper by lra.
    replace (2 - 2 * 1) with 0 by lra. rewrite H0. js_arith.
  - rewrite toEaseInOut_upper by lra.
    replace (2 - 2 * 0.5) with 1 by lra. rewrite H1. js_arith.
Qed.

(** [toEaseOut] exchanges the two ends, the result goes from
    [1 - f(1)] to [1 - f(0)]; the two ends of [toEaseInOut f] only
    depend on [f(0)], and its middle value only on [f(1)]. *)
Theorem derived_ends (y0 y1 : R) :
  f (Fin 0) = Fin y0 -> f (Fin 1) = Fin y1 ->
  (Jsx.EasingHelpers.toEaseOut f (Fin 0) = Fin (1 - y1) /\
   Jsx.EasingHelpers.toEaseOut f (Fin 1) = Fin (1 - y0)) /\
  (Jsx.EasingHelpers.toEaseInOut f (Fin 0) = Fin (y0 / 2) /\
   Jsx.EasingHelpers.toEaseInOut f (Fin 1) = Fin (1 - y0 / 2) /\
   Jsx.EasingHelpers.toEaseInOut f (Fin 0.5) = Fin (1 - y1 / 2)).
Proof.
  intros H0 H1. split.
  - now apply toEaseOut_ends_real.
  - now apply toEaseInOut_ends_real.
Qed.

(** The curve of [toEaseInOut f] is symmetric about the point
    (0.5, 0.5): the values at [t] and at [1 - t] add up to 1. *)
Theorem toEaseInOut_symmetric (t y : R) :
  t < 0.5 -> f (Fin (2 * t)) = Fin y ->
  Jsx.EasingHelpers.toEaseInOut f (Fin t) = Fin (y / 2) /\
  Jsx.EasingHelpers.toEaseInOut f (Fin (1 - t)) = Fin (1 - y / 2).
Proof.
  intros Ht H. split.
  - rewrite toEaseInOut_lower by trivial. rewrite H. js_arith.
  - rewrite toEaseInOut_upper by lra.
    replace (2 - 2 * (1 - t)) with (2 * t) by lra. rewrite H. js_arith.
Qed.

(** Both derived curves of a function from 0 to 1 go from 0 to 1. *)
Lemma endpoints_derived :
  Props.Endpoints f ->
  Props.Endpoints (Jsx.EasingHelpers.toEaseOut f) /\
  Props.Endpoints (Jsx.EasingHelpers.toEaseInOut f).
Proof.
  intros [H0 H1].
  destruct (toEaseOut_ends_real 0 1 H0 H1) as [A B].
  destruct (toEaseInOut_ends_real 0 1 H0 H1) as (C & D & _).
  repeat split.
  - rewrite A. apply Fin_eq. lra.
  - rewrite B. apply Fin_eq. lra.
  - rewrite C. apply Fin_eq. lra.
  - rewrite D. apply Fin_eq. lra.
Qed.

(** [squeeze f 0 1] is [f] itself when [f] already goes from 0 to 1. *)
Theorem squeeze_of_normalized (t y : R) :
  Props.Endpoints f -> f (Fin t) = Fin y ->
  Jsx.EasingHelpers.squeeze f (Fin 0) (Fin 1) (Fin t) = Fin y.
Proof.
  intros [H0 H1] H. unfold Jsx.EasingHelpers.squeeze.
  rewrite H0, H1. cbn [sub mul add].
  replace (0 + t * (1 - 0)) with t by lra. rewrite H. js_arith.
Qed.

(** [squeeze] does not see an affine change of the values of [f]:
    squeezing [ease f a b] is squeezing [f]. *)
Theorem squeeze_ignores_ease (a b x1 x2 t y1 y2 y : R) :
  a <> b ->
  f (Fin x1) = Fin y1 -> f (Fin x2) = Fin y2 -> y1 <> y2 ->
  f (Fin (x1 + t * (x2 - x1))) = Fin y ->
  Jsx.EasingHelpers.squeeze (Jsx.EasingHelpers.ease f (Fin a) (Fin b))
    (Fin x1) (Fin x2) (Fin t)
  = Jsx.EasingHelpers.squeeze f (Fin x1) (Fin x2) (Fin t).
Proof.
  intros Hab H1 H2 Hy H.
  unfold Jsx.EasingHelpers.squeeze, Jsx.EasingHelpers.ease.
  cbn [sub mul add]. rewrite H, H1, H2. cbn [sub mul add div].
  assert (Hd : y2 - y1 <> 0) by (intro E; apply Hy; lra).
  assert (Hba : b - a <> 0) by (intro E; apply Hab; lra).
  rewrite (Reqb_false _ _ Hd).
  rewrite (Reqb_false (a + y2 * (b - a) - (a + y1 * (b - a))) 0).
  - apply Fin_eq. field. split; [trivial|].
    replace (a + y2 * (b - a) - (a + y1 * (b - a)))
      with ((y2 - y1) * (b - a)) by ring.
    now apply Rmult_integral_contrapositive_currified.
  - replace (a + y2 * (b - a) - (a + y1 * (b - a)))
      with ((y2 - y1) * (b - a)) by ring.
    now apply Rmult_integral_contrapositive_currified.
Qed.

End CombinatorLaws.

(* ================================================================== *)
(** ** Further properties of the named curves *)
(* ================================================================== *)

Section NamedCurves.

Import JS JSFacts.
Local Open Scope R_scope.

(** Every named "Out" and "InOut" curve other than those of [expIn]
    goes from 0 to 1, as its "In" curve does. *)
Theorem derived_curves_endpoints :
  (Props.Endpoints Jsx.Easing.quadOut /\
   Props.Endpoints Jsx.Easing.cubicOut /\
   Props.Endpoints Jsx.Easing.sinOut /\
   Props.Endpoints Jsx.Easing.circleOut /\
   Props.Endpoints Jsx.Easing.backOut /\
   Props.Endpoints Jsx.Easing.elasticOut /\
   Props.Endpoints Jsx.Easing.bounceOut)
  /\
  (Props.Endpoints Jsx.Easing.quadInOut /\
   Props.Endpoints Jsx.Easing.cubicInOut /\
   Props.Endpoints Jsx.Easing.sinInOut /\
   Props.Endpoints Jsx.Easing.circleInOut /\
   Props.Endpoints Jsx.Easing.backInOut /\
   Props.Endpoints Jsx.Easing.elasticInOut /\
   Props.Endpoints Jsx.Easing.bounceInOut).
Proof.
  split.
  - repeat match goal with |- _ /\ _ => split end.
    + apply (endpoints_derived _ endpoints_quadIn).
    + apply (endpoints_derived _ endpoints_cubicIn).
    + apply (endpoints_derived _ endpoints_sinIn).
    + apply (endpoints_derived _ endpoints_circleIn).
    + apply (endpoints_derived _ endpoints_backIn).
    + apply (endpoints_derived _ endpoints_elasticIn).
    + split; rewrite bounceOut_real; apply Fin_eq.
      * apply Spec_bounceOut_0.
      * apply Spec_bounceOut_1.
  - repeat match goal with |- _ /\ _ => split end.
    + apply (endpoints_derived _ endpoints_quadIn).
    + apply (endpoints_derived _ endpoints_cubicIn).
    + apply (endpoints_derived _ endpoints_sinIn).
    + apply (endpoints_derived _ endpoints_circleIn).
    + apply (endpoints_derived _ endpoints_backIn).
    + apply (endpoints_derived _ endpoints_elasticIn).
    + apply (endpoints_derived _ endpoints_bounceIn).
Qed.

Lemma Rpower_2_m10 : Rpower 2 (10 * (0 - 1)) = / 1024.
Proof.
  replace (10 * (0 - 1)) with (- INR 10) by (simpl; lra).
  rewrite Rpower_Ropp, Rpower_pow by lra. f_equal. lra.
Qed.

(** The curves of [expIn] miss one end by [2^-10] (or half of it):
    [expIn] starts at 1/1024, [expOut] ends at 1 - 1/1024, and
    [expInOut] goes from 1/2048 to 1 - 1/2048; the other ends and the
    middle are exact. *)
Theorem exp_curves_ends :
  (Jsx.Easing.expIn (Fin 0) = Fin (/ 1024) /\
   Jsx.Easing.expIn (Fin 1) = Fin 1) /\
  (Jsx.Easing.expOut (Fin 0) = Fin 0 /\
   Jsx.Easing.expOut (Fin 1) = Fin (1 - / 1024)) /\
  (Jsx.Easing.expInOut (Fin 0) = Fin (/ 2048) /\
   Jsx.Easing.expInOut (Fin 0.5) = Fin 0.5 /\
   Jsx.Easing.expInOut (Fin 1) = Fin (1 - / 2048)).
Proof.
  assert (H0 : Jsx.Easing.expIn (Fin 0) = Fin (/ 1024))
    by (rewrite expIn_real; apply Fin_eq; apply Rpower_2_m10).
  pose proof expIn_1 as H1.
  destruct (toEaseOut_ends_real _ _ _ H0 H1) as [A B].
  destruct (toEaseInOut_ends_real _ _ _ H0 H1) as (C & D & E).
  unfold Jsx.Easing.expOut, Jsx.Easing.expInOut.
  rewrite A, B, C, D, E.
  repeat split; trivial; apply Fin_eq; lra.
Qed.

(** On the unit interval [bounceOut] stays between 0 and 1. *)
Lemma Spec_bounceOut_range (t : R) :
  0 <= t <= 1 -> 0 <= Spec.bounceOut t <= 1.
Proof.
  intros [H0 H1]. unfold Spec.bounceOut.
  destruct (Rlt_dec t (1 / 2.75)); [nra|].
  destruct (Rlt_dec t (2 / 2.75)); [nra|].
  destruct (Rlt_dec t (2.5 / 2.75)); nra.
Qed.

(** On the unit interval [bounceOut], [bounceIn] and [bounceInOut]
    return a real between 0 and 1: the bounce never leaves the range. *)
Theorem bounce_curves_range (t : R) :
  0 <= t <= 1 ->
  Shape.realIn 0 1 (Jsx.Easing.bounceOut (Fin t)) /\
  Shape.realIn 0 1 (Jsx.Easing.bounceIn (Fin t)) /\
  Shape.realIn 0 1 (Jsx.Easing.bounceInOut (Fin t)).
Proof.
  intro Ht. split; [|split].
  - exists (Spec.bounceOut t). split; [apply bounceOut_real|].
    now apply Spec_bounceOut_range.
  - exists (Spec.bounceIn t). split; [apply bounceIn_real|].
    unfold Spec.bounceIn.
    assert (0 <= Spec.bounceOut (1 - t) <= 1)
      by (apply Spec_bounceOut_range; lra).
    lra.
  - unfold Jsx.Easing.bounceInOut.
    destruct (Rlt_dec t 0.5) as [Hlt|Hge].
    + rewrite toEaseInOut_lower, bounceIn_real by trivial.
      eexists. split; [js_eval; reflexivity|].
      unfold Spec.bounceIn.
      assert (0 <= Spec.bounceOut (1 - 2 * t) <= 1)
        by (apply Spec_bounceOut_range; lra).
      lra.
    + rewrite toEaseInOut_upper, bounceIn_real by trivial.
      eexists. split; [js_eval; reflexivity|].
      unfold Spec.bounceIn.
      assert (0 <= Spec.bounceOut (1 - (2 - 2 * t)) <= 1)
        by (apply Spec_bounceOut_range; lra).
      lra.
Qed.

(** [bounceOut] has no jump: at each of its three thresholds it is 1,
    and the arc that ends there reaches 1 at the threshold too. *)
Lemma bounceOut_arcs_meet :
  (Jsx.Easing.bounceOut (Fin (1 / 2.75)) = Fin 1 /\
   7.5625 * (1 / 2.75) ^ 2 = 1) /\
  (Jsx.Easing.bounceOut (Fin (2 / 2.75)) = Fin 1 /\
   7.5625 * (2 / 2.75 - 1.5 / 2.75) ^ 2 + 0.75 = 1) /\
  (Jsx.Easing.bounceOut (Fin (2.5 / 2.75)) = Fin 1 /\
   7.5625 * (2.5 / 2.75 - 2.25 / 2.75) ^ 2 + 0.9375 = 1).
Proof.
  repeat split; try lra;
    rewrite bounceOut_real; apply Fin_eq; unfold Spec.bounceOut.
  - destruct (Rlt_dec (1 / 2.75) (1 / 2.75)); [lra|].
    destruct (Rlt_dec (1 / 2.75) (2 / 2.75)); lra.
  - destruct (Rlt_dec (2 / 2.75) (1 / 2.75)); [lra|].
    destruct (Rlt_dec (2 / 2.75) (2 / 2.75)); [lra|].
    destruct (Rlt_dec (2 / 2.75) (2.5 / 2.75)); lra.
  - destruct (Rlt_dec (2.5 / 2.75) (1 / 2.75)); [lra|].
    destruct (Rlt_dec (2.5 / 2.75) (2 / 2.75)); [lra|].
    destruct (Rlt_dec (2.5 / 2.75) (2.5 / 2.75)); lra.
Qed.

(** The bounce family is built the other way round, [bounceIn] from
    [bounceOut]; all the same [bounceOut] and [bounceInOut] are the
    curves derived from [bounceIn], and [bounceInOut 0.5] is 0.5. *)
Theorem bounce_family_derived :
  Props.Derived Jsx.Easing.bounceIn Jsx.Easing.bounceOut
    Jsx.Easing.bounceInOut /\
  Props.Midpoint Jsx.Easing.bounceInOut.
Proof.
  split; [repeat split|].
  - intro t. rewrite bounceIn_real, bounceOut_real. js_eval.
    apply Fin_eq. unfold Spec.bounceIn.
    replace (1 - (1 - t)) with t by lra. lra.
  - apply toEaseInOut_lower.
  - apply toEaseInOut_upper.
  - apply toEaseInOut_middle.
  - apply toEaseInOut_middle. apply endpoints_bounceIn.
Qed.

End NamedCurves.

(* ================================================================== *)
(** ** Ranges of the base curves *)
(* ================================================================== *)

Section BaseRanges.

Import JS JSFacts.
Local Open Scope R_scope.

(** On the unit interval [quadIn], [cubicIn], [sinIn], [circleIn] and
    [expIn] return a real between 0 and 1. *)
Theorem base_curves_range (t : R) :
  0 <= t <= 1 ->
  Shape.realIn 0 1 (Jsx.Easing.quadIn (Fin t)) /\
  Shape.realIn 0 1 (Jsx.Easing.cubicIn (Fin t)) /\
  Shape.realIn 0 1 (Jsx.Easing.sinIn (Fin t)) /\
  Shape.realIn 0 1 (Jsx.Easing.circleIn (Fin t)) /\
  Shape.realIn 0 1 (Jsx.Easing.expIn (Fin t)).
Proof.
  intros [H0 H1]. repeat split.
  - exists (t ^ 2). split; [apply quadIn_real|nra].
  - exists (t ^ 3). split; [apply cubicIn_real|].
    assert (0 <= t ^ 2 <= 1) by nra. nra.
  - eexists. split; [apply sinIn_real|].
    assert (Hpi : 0 < PI) by apply PI_RGT_0.
    assert (0 <= cos (t * PI / 2))
      by (apply cos_ge_0; nra).
    pose proof (COS_bound (t * PI / 2)). lra.
  - exists (1 - sqrt (1 - t ^ 2)). split.
    + rewrite circleIn_sqrt_real. unfold Math_sqrt.
      rewrite Rltb_false by nra. reflexivity.
    + assert (0 <= sqrt (1 - t ^ 2)) by apply sqrt_pos.
      assert (sqrt (1 - t ^ 2) <= sqrt 1)
        by (apply sqrt_le_1_alt; nra).
      rewrite sqrt_1 in *. lra.
  - eexists. split; [apply expIn_real|].
    split; [left; apply exp_pos|].
    apply Rle_trans with (Rpower 2 0);
      [apply Rle_Rpower; lra | rewrite Rpower_O; lra].
Qed.

(** [elasticIn] swings below 0: it is negative for every [t] strictly
    between 2/13 and 4/13. *)
Theorem elasticIn_negative (t : R) :
  2 / 13 < t < 4 / 13 ->
  exists y : R, Jsx.Easing.elasticIn (Fin t) = Fin y /\ y < 0.
Proof.
  intros [H0 H1]. eexists. split; [apply elasticIn_real|].
  assert (Hpi : 0 < PI) by apply PI_RGT_0.
  assert (Hs : sin (13 * t * PI / 2) < 0) by (apply sin_lt_0; nra).
  assert (Hp : 0 < Rpower 2 (10 * (t - 1))) by apply exp_pos.
  nra.
Qed.

End BaseRanges.

(* ================================================================== *)
(** ** The factories *)
(* ================================================================== *)

Section Factories.

Import JS JSFacts.
Local Open Scope R_scope.

Lemma makePolyIn_powerRZ (z : Z) (t : R) :
  t <> 0 \/ (0 <= z)%Z ->
  Jsx.Easing.makePolyIn (Fin (IZR z)) (Fin t) = Fin (powerRZ t z).
Proof.
  intro H. unfold Jsx.Easing.makePolyIn.
  destruct (Rtotal_order 0 t) as [Hpos|[Hz|Hneg]].
  - rewrite Math_pow_pos by trivial. now rewrite powerRZ_Rpower.
  - subst t. unfold Math_pow.
    destruct (Z.eq_dec z 0) as [->|Hnz].
    + rewrite Reqb_true by trivial. reflexivity.
    + assert (Hz : (0 < z)%Z) by (destruct H; [lra|lia]).
      assert (0 < IZR z) by now apply IZR_lt.
      rewrite (Reqb_false (IZR z) 0) by lra.
      rewrite (Rltb_false 0 0) by lra.
      rewrite (Reqb_true 0 0) by trivial.
      rewrite (Rltb_true 0 (IZR z)) by trivial.
      apply Fin_eq. destruct z as [|p|p]; try lia.
      simpl. symmetry. apply pow_i. apply Pos2Nat.is_pos.
  - unfold Math_pow, isInteger.
    destruct (Z.eq_dec z 0) as [->|Hnz].
    + rewrite Reqb_true by trivial. reflexivity.
    + rewrite (Reqb_false (IZR z) 0)
        by (intro E; apply eq_IZR in E; contradiction).
      rewrite (Rltb_false 0 t) by lra.
      rewrite (Reqb_false t 0) by lra.
      rewrite Int_part_IZR. now rewrite Reqb_true.
Qed.

(** [makePolyIn] with an integer exponent is the integer power, for
    a base of any sign (a base 0 needs an exponent that is not
    negative); so [makePolyIn 2] is [quadIn] on every real, although
    one multiplies and the other calls [Math.pow]. *)
Theorem makePolyIn_integer :
  (forall (z : Z) (t : R),
     t <> 0 \/ (0 <= z)%Z ->
     Jsx.Easing.makePolyIn (Fin (IZR z)) (Fin t) = Fin (powerRZ t z)) /\
  (forall t : R,
     Jsx.Easing.makePolyIn (Fin 2) (Fin t) = Jsx.Easing.quadIn (Fin t)).
Proof.
  split; [exact makePolyIn_powerRZ|].
  intro t. rewrite (makePolyIn_powerRZ 2 t) by (right; lia).
  rewrite quadIn_real. apply Fin_eq. simpl. ring.
Qed.

Lemma Rpower_base_1 (e : R) : Rpower 1 e = 1.
Proof. unfold Rpower. now rewrite ln_1, Rmult_0_r, exp_0. Qed.

(** [makePolyIn e] goes from 0 to 1 for every positive real exponent. *)
Theorem makePolyIn_endpoints (e : R) :
  0 < e -> Props.Endpoints (Jsx.Easing.makePolyIn (Fin e)).
Proof.
  intro He. unfold Jsx.Easing.makePolyIn. split.
  - unfold Math_pow. now Rdecide.
  - rewrite Math_pow_pos by lra. now rewrite Rpower_base_1.
Qed.

Lemma makePolyIn_negative_base (e t : R) :
  t < 0 -> (forall z : Z, e <> IZR z) ->
  Jsx.Easing.makePolyIn (Fin e) (Fin t) = NaN.
Proof.
  intros Ht He. unfold Jsx.Easing.makePolyIn, Math_pow, isInteger.
  rewrite (Reqb_false e 0) by apply (He 0%Z).
  rewrite (Rltb_false 0 t) by lra.
  rewrite (Reqb_false t 0) by lra.
  now rewrite (Reqb_false _ _ (He (Int_part e))).
Qed.

(** The edges of [makePolyIn]: with an exponent 0 it is the constant
    1, even at [NaN]; with a negative exponent it is [+Infinity] at 0;
    and a negative [t] with an exponent that is not an integer gives
    [NaN]. *)
Theorem makePolyIn_degenerate :
  (forall t : Number, Jsx.Easing.makePolyIn (Fin 0) t = Fin 1) /\
  (forall e : R,
     e < 0 -> Jsx.Easing.makePolyIn (Fin e) (Fin 0) = PosInf) /\
  (forall e t : R,
     t < 0 -> (forall z : Z, e <> IZR z) ->
     Jsx.Easing.makePolyIn (Fin e) (Fin t) = NaN).
Proof.
  split; [|split].
  - intro t. unfold Jsx.Easing.makePolyIn, Math_pow.
    now rewrite Reqb_true.
  - intros e He. unfold Jsx.Easing.makePolyIn, Math_pow. now Rdecide.
  - exact makePolyIn_negative_base.
Qed.

(** [makeBackIn a] goes from 0 to 1 for every real amplitude [a]. *)
Theorem makeBackIn_endpoints (a : R) :
  Props.Endpoints (Jsx.Easing.makeBackIn (Fin a)).
Proof. unfold Jsx.Easing.makeBackIn. split; js_arith. Qed.

(** With a positive amplitude [a] the curve of [makeBackIn a] first
    goes backwards: it is negative strictly between 0 and [a/(1+a)],
    zero at [a/(1+a)] and positive after it. *)
Theorem makeBackIn_overshoot (a t : R) :
  0 < a -> 0 < t ->
  exists y : R,
    Jsx.Easing.makeBackIn (Fin a) (Fin t) = Fin y /\
    (t < a / (1 + a) -> y < 0) /\
    (t = a / (1 + a) -> y = 0) /\
    (a / (1 + a) < t -> 0 < y).
Proof.
  intros Ha Ht. unfold Jsx.Easing.makeBackIn. js_eval.
  eexists. split; [reflexivity|].
  assert (Hsq : 0 < t * t) by nra.
  assert (Hq : (1 + a) * (a / (1 + a)) = a) by (field; lra).
  repeat split; intro H.
  - assert ((1 + a) * t - a < 0) by nra. nra.
  - assert ((1 + a) * t - a = 0) by (rewrite H; lra). nra.
  - assert (0 < (1 + a) * t - a) by nra. nra.
Qed.

(** Without amplitude, [makeBackIn 0] is the cubic curve. *)
Lemma makeBackIn_0_is_cubicIn (t : R) :
  Jsx.Easing.makeBackIn (Fin 0) (Fin t) = Jsx.Easing.cubicIn (Fin t).
Proof.
  rewrite cubicIn_real. unfold Jsx.Easing.makeBackIn. js_arith.
Qed.

End Factories.

(* ================================================================== *)
(** ** [makeElasticIn]: ends and degenerate springiness *)
(* ================================================================== *)

Section ElasticEnds.

Import JS JSFacts.
Local Open Scope R_scope.

Lemma sin_period_Z (x : R) (k : Z) : sin (x + 2 * IZR k * PI) = sin x.
Proof.
  destruct k as [|p|p].
  - f_equal. lra.
  - rewrite <- (sin_period x (Pos.to_nat p)).
    now rewrite INR_IZR_INZ, positive_nat_Z.
  - rewrite <- (sin_period (x + 2 * IZR (Z.neg p) * PI) (Pos.to_nat p)).
    rewrite INR_IZR_INZ, positive_nat_Z. f_equal.
    change (Z.neg p) with (- Z.pos p)%Z. rewrite opp_IZR. lra.
Qed.

Lemma toReal_Some (a : Number) (r : R) : toReal a = Some r -> a = Fin r.
Proof. destruct a; simpl; congruence. Qed.

(** For a springiness other than 0 and any real number of swings,
    [makeElasticIn] goes from 0 to 1: the sine is taken at a whole
    number of turns plus a quarter. *)
Theorem makeElasticIn_endpoints (s x : R) :
  s <> 0 ->
  Props.Endpoints (Jsx.Easing.makeElasticIn (Fin s) (Fin x)).
Proof.
  intro Hs.
  assert (He : exp s - 1 <> 0)
    by (intro E; apply Hs; now apply exp_minus_1_zero).
  split; apply toReal_Some; rewrite makeElasticIn_real;
    unfold Spec.elastic; destruct (Req_dec_T (exp s - 1) 0);
    try contradiction; f_equal.
  - rewrite !Rmult_0_r, sin_0. lra.
  - rewrite !Rmult_1_r.
    replace (2 * PI * IZR (Int_part (x + / 2)) + PI / 2)
      with (PI / 2 + 2 * IZR (Int_part (x + / 2)) * PI) by lra.
    rewrite sin_period_Z, sin_PI2. now field.
Qed.

(** With a springiness 0 the divisor [e^s - 1] and the dividend are
    both 0, and [makeElasticIn] is [NaN] at every real. *)
Theorem makeElasticIn_springiness_0 (x t : R) :
  Jsx.Easing.makeElasticIn (Fin 0) (Fin x) (Fin t) = NaN.
Proof.
  unfold Jsx.Easing.makeElasticIn, Math_round.
  cbn [Math_exp Math_PI mul sub add div].
  rewrite (Reqb_true (exp 0 - 1.0) 0) by (rewrite exp_0; lra).
  rewrite (Reqb_true (exp (0 * t) - 1.0) 0)
    by (rewrite Rmult_0_l, exp_0; lra).
  reflexivity.
Qed.

End ElasticEnds.

(* ================================================================== *)
(** ** [makeBounceIn]: the curve on the unit interval *)
(* ================================================================== *)

Section BounceCurve.

Import JS JSFacts.
Local Open Scope R_scope.

Variables b e : R.
Hypothesis Hb : 1 < b.
Hypothesis He : 0 < e.

Let P := Rpower b e.
Let S := BounceReal.sumOfUnits b e.

Lemma bounce_P_gt_1 : 1 < P.
Proof. now apply Rpower_above_1. Qed.

(** [(1 - b) * sumOfUnits], the divisor of the two edges. *)
Lemma bounce_divisor : (1 - b) * S = 1 - P * (1 + b) / 2.
Proof.
  unfold S, BounceReal.sumOfUnits. fold P.
  replace 0.5 with (/ 2) by lra. field. lra.
Qed.

Lemma bounce_S_pos : 0 < S.
Proof.
  pose proof bounce_P_gt_1 as HP. pose proof bounce_divisor as HD.
  assert (H : (b - 1) * S = P * (1 + b) / 2 - 1) by lra.
  assert (0 < P * (1 + b) / 2 - 1) by nra.
  apply Rmult_lt_reg_l with (b - 1); [lra|]. lra.
Qed.

Lemma bounce_arg_ge_1 (t : R) :
  0 <= t -> 1 <= BounceReal.logArgument b e t.
Proof.
  intro Ht. unfold BounceReal.logArgument. fold S.
  pose proof bounce_S_pos.
  assert (0 <= t * S) by (apply Rmult_le_pos; lra).
  assert (0 <= t * S * (b - 1)) by (apply Rmult_le_pos; lra).
  lra.
Qed.

Lemma bounce_sumOfUnits_R :
  BounceIn.sumOfUnits (Fin e) (Fin b) = Fin S.
Proof.
  unfold BounceIn.sumOfUnits. rewrite Math_pow_pos by lra.
  cbn [sub div]. rewrite (Reqb_false (1.0 - b) 0) by lra.
  cbn [mul add]. apply Fin_eq.
  unfold S, BounceReal.sumOfUnits. now replace 1.0 with 1 by lra.
Qed.

Lemma bounce_logArgument_R (t : R) :
  BounceIn.logArgument (Fin e) (Fin b) (Fin t)
  = Fin (BounceReal.logArgument b e t).
Proof.
  unfold BounceIn.logArgument. rewrite bounce_sumOfUnits_R.
  cbn [mul neg sub add]. apply Fin_eq.
  unfold BounceReal.logArgument. fold S.
  now replace 1.0 with 1 by lra.
Qed.

Lemma bounce_bounceAtT_R (t : R) :
  0 <= t ->
  BounceIn.bounceAtT (Fin e) (Fin b) (Fin t)
  = Fin (ln (BounceReal.logArgument b e t) / ln b).
Proof.
  intro Ht. pose proof (bounce_arg_ge_1 t Ht).
  unfold BounceIn.bounceAtT, BounceIn.logDivisor.
  rewrite bounce_logArgument_R, !Math_log_pos by lra.
  cbn [div]. rewrite Reqb_false; [reflexivity|].
  apply ln_neq_0; lra.
Qed.

(** The distance between two consecutive edges. *)
Lemma bounce_edge_step (x : R) :
  BounceReal.edge b e (x + 1) - BounceReal.edge b e x = Rpower b x / S.
Proof.
  unfold BounceReal.edge. fold S.
  rewrite Rpower_plus, Rpower_1 by lra.
  pose proof bounce_S_pos. field. lra.
Qed.

Lemma bounce_radius_pos (k : Z) :
  0 < (BounceReal.edge b e (IZR k) + BounceReal.edge b e (IZR k + 1))
      * 0.5 - BounceReal.edge b e (IZR k).
Proof.
  pose proof (bounce_edge_step (IZR k)) as Hstep.
  assert (0 < Rpower b (IZR k) / S).
  { apply Rdiv_lt_0_compat; [apply exp_pos | apply bounce_S_pos]. }
  lra.
Qed.

(** The parabola of the code is the real parabola of the bounce whose
    index is the floor of [bounceAtT]. *)
Lemma bounce_parabola_R (q t : R) :
  BounceIn.parabola (Fin e) (Fin b) (Fin q) (Fin t)
  = Fin (BounceReal.arc b e (Int_part q) t).
Proof.
  pose proof bounce_S_pos as HS.
  pose proof (bounce_radius_pos (Int_part q)) as Hr.
  unfold BounceIn.parabola. rewrite bounce_sumOfUnits_R.
  cbv zeta. cbn [Math_floor add sub mul].
  rewrite !Math_pow_pos by lra.
  cbn [sub div].
  rewrite (Reqb_false ((1.0 - b) * S) 0) by nra.
  rewrite (Reqb_false b 0) by lra.
  rewrite Math_pow_pos by (apply Rdiv_lt_0_compat; lra).
  cbn [add sub mul neg div].
  unfold BounceReal.arc, BounceReal.edge in Hr |- *. fold S in Hr |- *.
  replace 1.0 with 1 by lra.
  set (st := (1 - Rpower b (IZR (Int_part q))) / ((1 - b) * S))
    in Hr |- *.
  set (et := (1 - Rpower b (IZR (Int_part q) + 1)) / ((1 - b) * S))
    in Hr |- *.
  rewrite Reqb_false by nra.
  reflexivity.
Qed.

End BounceCurve.

Section BounceEnds.

Import JS JSFacts.
Local Open Scope R_scope.

Lemma clamp_gt_1 (b0 : R) : 1 < BounceReal.clamp b0.
Proof. unfold BounceReal.clamp. destruct (Rle_dec b0 1); lra. Qed.

Lemma clampBounciness_R (b0 : R) :
  BounceIn.clampBounciness (Fin b0) = Fin (BounceReal.clamp b0).
Proof.
  unfold BounceIn.clampBounciness, BounceReal.clamp. cbn [le].
  unfold Rleb. now destruct (Rle_dec b0 1).
Qed.

Lemma makeBounceIn_curve (b0 e t : R) :
  0 < e -> 0 <= t ->
  Jsx.Easing.makeBounceIn (Fin e) (Fin b0) (Fin t)
  = Fin (BounceReal.curve (BounceReal.clamp b0) e t).
Proof.
  intros He Ht. pose proof (clamp_gt_1 b0) as Hb.
  rewrite makeBounceIn_pieces, clampBounciness_R.
  rewrite bounce_bounceAtT_R by trivial.
  now rewrite bounce_parabola_R.
Qed.

(** For a real bounciness, a positive number of bounces and a time
    that is not negative, [makeBounceIn] returns a real number: the
    parabola of the bounce that contains the time. *)
Theorem makeBounceIn_real (b0 e t : R) :
  0 < e -> 0 <= t ->
  Jsx.Easing.makeBounceIn (Fin e) (Fin b0) (Fin t)
  = Fin (BounceReal.curve (BounceReal.clamp b0) e t).
Proof. apply makeBounceIn_curve. Qed.

Lemma segment_at_0 (b e : R) :
  1 < b -> BounceReal.segment b e 0 = 0%Z.
Proof.
  intro Hb. unfold BounceReal.segment, BounceReal.logArgument.
  replace (- (0 * BounceReal.sumOfUnits b e) * (1 - b) + 1) with 1
    by lra.
  rewrite ln_1. unfold Rdiv. rewrite Rmult_0_l.
  apply (Int_part_IZR 0).
Qed.

(** [makeBounceIn] starts at 0. *)
Lemma makeBounceIn_at_0 (b0 e : R) :
  0 < e -> Jsx.Easing.makeBounceIn (Fin e) (Fin b0) (Fin 0) = Fin 0.
Proof.
  intro He. rewrite makeBounceIn_curve by lra. apply Fin_eq.
  pose proof (clamp_gt_1 b0) as Hb.
  unfold BounceReal.curve. rewrite segment_at_0 by trivial.
  unfold BounceReal.arc. cbv zeta.
  assert (Hst : BounceReal.edge (BounceReal.clamp b0) e 0 = 0).
  { unfold BounceReal.edge. rewrite Rpower_O by lra.
    unfold Rdiv, Rminus. now rewrite Rplus_opp_r, Rmult_0_l. }
  rewrite Hst.
  match goal with |- _ * (?x + ?y) = 0 =>
    replace (x + y) with 0 by lra end.
  apply Rmult_0_r.
Qed.

Lemma segment_at_1 (b : R) (n : Z) :
  1 < b -> (1 <= n)%Z -> BounceReal.segment b (IZR n) 1 = n.
Proof.
  intros Hb Hn. assert (He : 0 < IZR n) by (apply IZR_lt; lia).
  unfold BounceReal.segment, BounceReal.logArgument.
  pose proof (bounce_divisor b (IZR n) Hb) as HD.
  pose proof (bounce_P_gt_1 b (IZR n) Hb He) as HP.
  replace (- (1 * BounceReal.sumOfUnits b (IZR n)) * (1 - b) + 1)
    with (Rpower b (IZR n) * ((1 + b) / 2)) by lra.
  rewrite ln_mult, ln_Rpower by lra.
  assert (Hlb : 0 < ln b) by (rewrite <- ln_1; apply ln_increasing; lra).
  assert (Hc0 : 0 < ln ((1 + b) / 2))
    by (rewrite <- ln_1; apply ln_increasing; lra).
  assert (Hc1 : ln ((1 + b) / 2) < ln b) by (apply ln_increasing; lra).
  replace ((IZR n * ln b + ln ((1 + b) / 2)) / ln b)
    with (IZR n + ln ((1 + b) / 2) / ln b) by (field; lra).
  symmetry. apply Int_part_spec.
  assert (0 < ln ((1 + b) / 2) / ln b)
    by (apply Rdiv_lt_0_compat; lra).
  assert (ln ((1 + b) / 2) / ln b < 1).
  { apply Rmult_lt_reg_r with (ln b); [trivial|].
    unfold Rdiv. rewrite Rmult_assoc, Rinv_l by lra. lra. }
  lra.
Qed.

Lemma makeBounceIn_at_1 (b0 : R) (n : Z) :
  (1 <= n)%Z ->
  Jsx.Easing.makeBounceIn (Fin (IZR n)) (Fin b0) (Fin 1) = Fin 1.
Proof.
  intro Hn. assert (He : 0 < IZR n) by (apply IZR_lt; lia).
  rewrite makeBounceIn_curve by lra. apply Fin_eq.
  pose proof (clamp_gt_1 b0) as Hb.
  set (b := BounceReal.clamp b0) in *.
  unfold BounceReal.curve. rewrite segment_at_1 by trivial.
  pose proof (bounce_radius_pos b (IZR n) Hb He n) as Hr.
  pose proof (bounce_divisor b (IZR n) Hb) as HD.
  pose proof (bounce_P_gt_1 b (IZR n) Hb He) as HP.
  unfold BounceReal.arc. cbv zeta.
  assert (Hmid : (BounceReal.edge b (IZR n) (IZR n)
                  + BounceReal.edge b (IZR n) (IZR n + 1)) * 0.5 = 1).
  { unfold BounceReal.edge. rewrite Rpower_plus, Rpower_1 by lra.
    rewrite HD. replace 0.5 with (/ 2) by lra. field. nra. }
  rewrite Hmid in *.
  replace (IZR n - IZR n) with 0 by lra.
  rewrite Rpower_O by (apply Rdiv_lt_0_compat; lra).
  set (st := BounceReal.edge b (IZR n) (IZR n)) in *.
  field. lra.
Qed.

(** With a whole number of bounces and any real bounciness,
    [makeBounceIn] goes from 0 to 1 exactly: the time 0 is the first
    zero of the first bounce and the time 1 is the peak of the last,
    half, bounce. *)
Theorem makeBounceIn_endpoints (b0 : R) (n : Z) :
  (1 <= n)%Z ->
  Props.Endpoints (Jsx.Easing.makeBounceIn (Fin (IZR n)) (Fin b0)).
Proof.
  intro Hn. split.
  - apply makeBounceIn_at_0. apply IZR_lt. lia.
  - now apply makeBounceIn_at_1.
Qed.

End BounceEnds.

Section BounceRange.

Import JS JSFacts.
Local Open Scope R_scope.

(** A parabola through [(st, 0)] and [(et, 0)] with a peak of height
    [A] stays between 0 and [A] from [st] to [et]. *)
Lemma arc_shape (A st et t : R) :
  0 < A <= 1 -> st <= t <= et -> st < et ->
  0 <= (- A / (((st + et) * 0.5 - st) * ((st + et) * 0.5 - st)))
       * (t - (st + et) * 0.5 - ((st + et) * 0.5 - st))
       * (t - (st + et) * 0.5 + ((st + et) * 0.5 - st)) <= 1.
Proof.
  intros HA Ht Hlt. replace 0.5 with (/ 2) by lra.
  set (r := (st + et) * / 2 - st).
  assert (Hr : 0 < r) by (unfold r; lra).
  assert (Hrr : 0 < r * r) by nra.
  set (u := (et - t) * (t - st)).
  assert (Hu0 : 0 <= u) by (apply Rmult_le_pos; lra).
  assert (Hu1 : u <= r * r).
  { pose proof (pow2_ge_0 (t - (st + et) * / 2)) as Hsq.
    unfold u, r. nra. }
  assert (Hw0 : 0 <= u / (r * r))
    by (apply Rmult_le_pos; [trivial | left; now apply Rinv_0_lt_compat]).
  assert (Hw1 : u / (r * r) <= 1).
  { apply Rmult_le_reg_r with (r * r); [trivial|].
    unfold Rdiv. rewrite Rmult_assoc, Rinv_l by lra. lra. }
  replace (- A / (r * r) * (t - (st + et) * / 2 - r)
           * (t - (st + et) * / 2 + r))
    with (A * (u / (r * r))) by (unfold u, r in *; field; lra).
  nra.
Qed.

Variable b : R.
Variable n : Z.
Variable t : R.
Hypothesis Hb : 1 < b.
Hypothesis Hn : (1 <= n)%Z.
Hypothesis Ht : 0 <= t <= 1.

Let e := IZR n.
Let k := BounceReal.segment b e t.
Let arg := BounceReal.logArgument b e t.

Lemma bounce_e_pos : 0 < e.
Proof. apply IZR_lt. lia. Qed.

Lemma bounce_ln_b_pos : 0 < ln b.
Proof. rewrite <- ln_1. apply ln_increasing; lra. Qed.

(** The argument of the logarithm lies between two consecutive powers
    of the bounciness. *)
Lemma bounce_arg_between :
  Rpower b (IZR k) <= arg < Rpower b (IZR k + 1).
Proof.
  pose proof bounce_e_pos as He. pose proof bounce_ln_b_pos as Hl.
  assert (Ha : 1 <= arg) by (apply bounce_arg_ge_1; tauto).
  assert (Hq : arg = Rpower b (ln arg / ln b)).
  { unfold Rpower. replace (ln arg / ln b * ln b) with (ln arg)
      by (field; lra).
    rewrite exp_ln; lra. }
  destruct (base_Int_part (ln arg / ln b)) as [H1 H2].
  assert (Hk : IZR k = IZR (Int_part (ln arg / ln b))) by reflexivity.
  split.
  - apply Rle_trans with (Rpower b (ln arg / ln b)).
    + apply Rle_Rpower; lra.
    + rewrite <- Hq. lra.
  - apply Rle_lt_trans with (Rpower b (ln arg / ln b)).
    + rewrite <- Hq. lra.
    + apply Rpower_lt; lra.
Qed.

(** The time lies in the bounce that the lookup selects. *)
Lemma bounce_time_between :
  BounceReal.edge b e (IZR k) <= t < BounceReal.edge b e (IZR k + 1).
Proof.
  pose proof bounce_e_pos as He.
  pose proof (bounce_S_pos b e Hb He) as HS.
  pose proof bounce_arg_between as [H1 H2].
  set (D := (1 - b) * BounceReal.sumOfUnits b e).
  assert (HD : D < 0) by (unfold D; nra).
  assert (HtD : t * D = 1 - arg).
  { unfold arg, BounceReal.logArgument, D. ring. }
  unfold BounceReal.edge. fold D.
  assert (Hst : (1 - Rpower b (IZR k)) / D * D = 1 - Rpower b (IZR k))
    by (field; lra).
  assert (Het : (1 - Rpower b (IZR k + 1)) / D * D
                = 1 - Rpower b (IZR k + 1)) by (field; lra).
  set (st := (1 - Rpower b (IZR k)) / D) in *.
  set (et := (1 - Rpower b (IZR k + 1)) / D) in *.
  split; nra.
Qed.

(** The selected bounce is one of the [n] bounces or the last half. *)
Lemma bounce_segment_le : IZR k <= e.
Proof.
  pose proof bounce_e_pos as He.
  pose proof (bounce_S_pos b e Hb He) as HS.
  pose proof (bounce_divisor b e Hb) as HD.
  pose proof (bounce_P_gt_1 b e Hb He) as HP.
  pose proof bounce_arg_between as [H1 _].
  assert (Harg : arg <= Rpower b e * (1 + b) / 2).
  { unfold arg, BounceReal.logArgument.
    assert (t * BounceReal.sumOfUnits b e * (b - 1)
            <= 1 * BounceReal.sumOfUnits b e * (b - 1)).
    { apply Rmult_le_compat_r; [lra|].
      apply Rmult_le_compat_r; lra. }
    lra. }
  assert (Hlt : Rpower b (IZR k) < Rpower b (e + 1)).
  { rewrite (Rpower_plus e 1 b), Rpower_1 by lra. nra. }
  assert (Hk : IZR k < e + 1).
  { destruct (Rlt_le_dec (IZR k) (e + 1)) as [|Hge]; [trivial|].
    apply (Rle_Rpower b) in Hge; lra. }
  unfold e in *. rewrite <- plus_IZR in Hk. apply lt_IZR in Hk.
  apply IZR_le. lia.
Qed.

Lemma bounce_amplitude_le_1 : 0 < Rpower (1 / b) (e - IZR k) <= 1.
Proof.
  pose proof bounce_segment_le as Hk.
  split; [apply exp_pos|].
  assert (Hl : ln (1 / b) < 0).
  { rewrite <- ln_1. apply ln_increasing.
    - apply Rdiv_lt_0_compat; lra.
    - apply Rmult_lt_reg_r with b; [lra|].
      unfold Rdiv. rewrite Rmult_assoc, Rinv_l by lra. lra. }
  unfold Rpower.
  destruct Hk as [Hlt|Heq].
  - left. apply Rlt_le_trans with (exp 0).
    + apply exp_increasing. nra.
    + rewrite exp_0. lra.
  - rewrite Heq. unfold Rminus. rewrite Rplus_opp_r, Rmult_0_l, exp_0.
    lra.
Qed.

Lemma bounce_curve_range : 0 <= BounceReal.curve b e t <= 1.
Proof.
  pose proof bounce_e_pos as He.
  pose proof bounce_time_between as [H1 H2].
  pose proof bounce_amplitude_le_1 as HA.
  pose proof (bounce_edge_step b e Hb He (IZR k)) as Hstep.
  assert (0 < Rpower b (IZR k) / BounceReal.sumOfUnits b e).
  { apply Rdiv_lt_0_compat; [apply exp_pos | now apply bounce_S_pos]. }
  unfold BounceReal.curve, BounceReal.arc. fold k. cbv zeta.
  apply arc_shape; lra.
Qed.

End BounceRange.

Section BounceRangeTheorem.

Import JS JSFacts.
Local Open Scope R_scope.

(** With a whole number of bounces and a real bounciness,
    [makeBounceIn] stays between 0 and 1 on the unit interval: each
    bounce is a parabola between two zeros, not higher than 1. *)
Theorem makeBounceIn_range (b0 : R) (n : Z) (t : R) :
  (1 <= n)%Z -> 0 <= t <= 1 ->
  Shape.realIn 0 1
    (Jsx.Easing.makeBounceIn (Fin (IZR n)) (Fin b0) (Fin t)).
Proof.
  intros Hn Ht. assert (He : 0 < IZR n) by (apply IZR_lt; lia).
  exists (BounceReal.curve (BounceReal.clamp b0) (IZR n) t). split.
  - apply makeBounceIn_curve; lra.
  - apply bounce_curve_range; trivial. apply clamp_gt_1.
Qed.

End BounceRangeTheorem.

(* ================================================================== *)
(** ** [advance]: driving an animation object *)
(* ================================================================== *)

Section Advance.

Import JS JSFacts.
Import Legacy.helpers.
Local Open Scope R_scope.

Variable easing : Number -> Number.
Variable oldAnim : Anim.

(** The percentage that [advance] passes to the easing function. *)
Lemma advance_value (startTime animDuration dt now : Number) :
  value (advance startTime animDuration easing oldAnim dt now)
  = easing (if ge (div (sub now startTime) animDuration) (Fin 1)
            then Fin 1
            else div (sub now startTime) animDuration).
Proof.
  unfold advance. cbv zeta.
  now destruct (eqb _ (Fin 1)).
Qed.

Lemma ge_1_of_eqb_1 (p : Number) :
  eqb p (Fin 1) = true -> ge p (Fin 1) = true.
Proof.
  destruct p as [x| | |]; simpl; try discriminate.
  intro H. apply Reqb_eq in H. subst x. apply Rleb_true. lra.
Qed.

Lemma advance_flag (startTime animDuration dt now : Number) :
  finished (advance startTime animDuration easing oldAnim dt now)
  = finished oldAnim
    || ge (div (sub now startTime) animDuration) (Fin 1).
Proof.
  unfold advance. cbv zeta.
  set (p := div (sub now startTime) animDuration).
  destruct (ge p (Fin 1)) eqn:Hge.
  - cbn [eqb]. rewrite Reqb_true by trivial. cbn.
    now rewrite orb_true_r.
  - destruct (eqb p (Fin 1)) eqn:Heq.
    + apply ge_1_of_eqb_1 in Heq. congruence.
    + cbn. now rewrite orb_false_r.
Qed.

(** The flag [finished] is set exactly when the elapsed share of the
    duration is [>= 1], and it is never cleared: after a step it is
    the old flag or that test, for all numbers, also infinite or
    [NaN]. *)
Theorem advance_finished (startTime animDuration dt now : Number) :
  finished (advance startTime animDuration easing oldAnim dt now)
  = finished oldAnim
    || ge (div (sub now startTime) animDuration) (Fin 1).
Proof. apply advance_flag. Qed.

(** Once the duration has elapsed the animation holds the last value
    of the easing function, [easing 1], and is finished, however late
    the step comes. *)
Theorem advance_after_end (s d dt now : R) :
  0 < d -> s + d <= now ->
  value (advance (Fin s) (Fin d) easing oldAnim (Fin dt) (Fin now))
  = easing (Fin 1) /\
  finished (advance (Fin s) (Fin d) easing oldAnim (Fin dt) (Fin now))
  = true.
Proof.
  intros Hd Hnow.
  assert (Hp : 1 <= (now - s) / d).
  { apply Rmult_le_reg_r with d; [trivial|].
    unfold Rdiv. rewrite Rmult_assoc, Rinv_l by lra. lra. }
  assert (Hge : ge (div (sub (Fin now) (Fin s)) (Fin d)) (Fin 1) = true).
  { cbn [sub div]. rewrite (Reqb_false d 0) by lra.
    cbn [ge le]. now apply Rleb_true. }
  split.
  - now rewrite advance_value, Hge.
  - rewrite advance_flag, Hge. apply orb_true_r.
Qed.

(** Before the end the value is the easing function at the elapsed
    share of the duration and the flag [finished] is left as it was;
    the share is not clamped below 0, so a step before the start time
    passes a negative number to the easing function. *)
Theorem advance_before_end (s d dt now : R) :
  0 < d -> now < s + d ->
  value (advance (Fin s) (Fin d) easing oldAnim (Fin dt) (Fin now))
  = easing (Fin ((now - s) / d)) /\
  finished (advance (Fin s) (Fin d) easing oldAnim (Fin dt) (Fin now))
  = finished oldAnim.
Proof.
  intros Hd Hnow.
  assert (Hp : (now - s) / d < 1).
  { apply Rmult_lt_reg_r with d; [trivial|].
    unfold Rdiv. rewrite Rmult_assoc, Rinv_l by lra. lra. }
  assert (Hge : ge (div (sub (Fin now) (Fin s)) (Fin d)) (Fin 1)
                = false).
  { cbn [sub div]. rewrite (Reqb_false d 0) by lra.
    cbn [ge le]. apply Rleb_false. lra. }
  split.
  - rewrite advance_value, Hge. cbn [sub div].
    now rewrite (Reqb_false d 0) by lra.
  - rewrite advance_flag, Hge. apply orb_false_r.
Qed.

Lemma advance_velocity_real
  (startTime animDuration now : Number) (dt v0 v1 : R) :
  dt <> 0 ->
  value oldAnim = Fin v0 ->
  value (advance startTime animDuration easing oldAnim (Fin dt) now)
  = Fin v1 ->
  exists vel : R,
    velocity (advance startTime animDuration easing oldAnim (Fin dt) now)
    = Fin vel /\
    v0 + vel * dt = v1.
Proof.
  intros Hdt H0 H1. rewrite advance_value in H1.
  exists ((v1 - v0) / dt). split.
  - unfold advance. cbv zeta.
    match goal with |- velocity (if ?c then _ else _) = _ =>
      destruct c end;
      cbn [velocity set_finished set_value set_velocity];
      rewrite H1, H0; cbn [sub div];
      now rewrite (Reqb_false dt 0).
  - field. trivial.
Qed.

(** The velocity is the change of the value over [dt]: the old value
    plus [dt] times the new velocity is the new value. *)
Theorem advance_velocity
  (startTime animDuration now : Number) (dt v0 v1 : R) :
  dt <> 0 ->
  value oldAnim = Fin v0 ->
  value (advance startTime animDuration easing oldAnim (Fin dt) now)
  = Fin v1 ->
  exists vel : R,
    velocity (advance startTime animDuration easing oldAnim (Fin dt) now)
    = Fin vel /\
    v0 + vel * dt = v1.
Proof. apply advance_velocity_real. Qed.

(** A step with [dt = 0] divides by zero: the velocity is an infinity
    or [NaN], whatever the values. *)
Theorem advance_zero_dt (startTime animDuration now : Number) :
  isFinite
    (velocity (advance startTime animDuration easing oldAnim (Fin 0) now))
  = false.
Proof.
  unfold advance. cbv zeta.
  match goal with |- isFinite (velocity (if ?c then _ else _)) = _ =>
    destruct c end;
    cbn [velocity set_finished set_value set_velocity];
    match goal with |- isFinite (div ?x _) = _ =>
      destruct x as [z| | |] end;
    cbn [div]; rewrite ?(Reqb_true 0 0), ?(Rleb_true 0 0) by lra;
    trivial;
    unfold Reqb, signed, Rltb;
    destruct (Req_dec_T z 0); trivial;
    destruct (Rlt_dec 0 z); trivial.
Qed.

(** With a duration 0 the elapsed share is a division by zero: after
    the start time it is [+Infinity], the animation jumps to
    [easing 1] and is finished; at the start time it is [NaN], the
    easing function receives [NaN] and the flag is left as it was. *)
Theorem advance_zero_duration (s dt now : R) :
  (s < now ->
   value (advance (Fin s) (Fin 0) easing oldAnim (Fin dt) (Fin now))
   = easing (Fin 1) /\
   finished (advance (Fin s) (Fin 0) easing oldAnim (Fin dt) (Fin now))
   = true) /\
  (value (advance (Fin s) (Fin 0) easing oldAnim (Fin dt) (Fin s))
   = easing NaN /\
   finished (advance (Fin s) (Fin 0) easing oldAnim (Fin dt) (Fin s))
   = finished oldAnim).
Proof.
  split; [intro Hnow|]; rewrite advance_value, advance_flag;
    cbn [sub div]; rewrite (Reqb_true 0 0) by trivial.
  - rewrite (Reqb_false (now - s) 0) by lra. unfold signed.
    rewrite (Rltb_true 0 (now - s)) by lra. cbn.
    split; [reflexivity | apply orb_true_r].
  - rewrite (Reqb_true (s - s) 0) by lra. cbn.
    split; [reflexivity | apply orb_false_r].
Qed.

End Advance.

Section AdvanceTwice.

Import JS JSFacts.
Import Legacy.helpers.
Local Open Scope R_scope.

(** A second step at the same instant changes neither the value nor
    the flag, and brings the velocity of a real value to 0. *)
Theorem advance_same_instant
  (easing : Number -> Number) (oldAnim : Anim)
  (startTime animDuration dt1 now : Number) (dt2 v : R) :
  dt2 <> 0 ->
  value (advance startTime animDuration easing oldAnim dt1 now) = Fin v ->
  let once := advance startTime animDuration easing oldAnim dt1 now in
  let twice := advance startTime animDuration easing once (Fin dt2) now in
  value twice = value once /\
  finished twice = finished once /\
  velocity twice = Fin 0.
Proof.
  intros Hdt Hv once twice. unfold twice, once.
  split; [|split].
  - now rewrite !advance_value.
  - rewrite !advance_flag.
    now destruct (finished oldAnim), (ge _ (Fin 1)).
  - destruct (advance_velocity_real easing
                (advance startTime animDuration easing oldAnim dt1 now)
                startTime animDuration now dt2 v v Hdt Hv)
      as (vel & Hvel & Heq).
    + rewrite advance_value. now rewrite advance_value in Hv.
    + rewrite Hvel. apply Fin_eq.
      assert (H : vel * dt2 = 0) by lra.
      apply Rmult_integral in H. tauto.
Qed.

End AdvanceTwice.

(* ================================================================== *)
(** ** Instances: the hypotheses above are met *)
(* ================================================================== *)

Section Instances.

Import JS JSFacts.
Import Legacy.helpers.
Local Open Scope R_scope.

Lemma ease_endpoints_witness :
  Jsx.EasingHelpers.ease Jsx.Easing.quadIn (Fin 2) (Fin 5) (Fin 0)
  = Fin 2 /\
  Jsx.EasingHelpers.ease Jsx.Easing.quadIn (Fin 2) (Fin 5) (Fin 1)
  = Fin 5.
Proof. apply ease_endpoints. exact endpoints_quadIn. Defined.

Lemma ease_nested_witness :
  Jsx.EasingHelpers.ease
    (Jsx.EasingHelpers.ease Jsx.Easing.quadIn (Fin 0) (Fin 1))
    (Fin 2) (Fin 4) (Fin 0.5)
  = Jsx.EasingHelpers.ease Jsx.Easing.quadIn
      (Fin (2 + 0 * (4 - 2))) (Fin (2 + 1 * (4 - 2))) (Fin 0.5).
Proof.
  apply (ease_nested Jsx.Easing.quadIn 0 1 2 4 0.25 (Fin 0.5)).
  rewrite quadIn_real. apply Fin_eq. lra.
Defined.

Lemma ease_toEaseOut_reverses_witness :
  Jsx.EasingHelpers.ease (Jsx.EasingHelpers.toEaseOut Jsx.Easing.quadIn)
    (Fin 2) (Fin 5) (Fin 0.25)
  = Jsx.EasingHelpers.ease Jsx.Easing.quadIn (Fin 5) (Fin 2)
      (Fin (1 - 0.25)).
Proof.
  apply (ease_toEaseOut_reverses Jsx.Easing.quadIn 2 5 0.25 0.5625).
  rewrite quadIn_real. apply Fin_eq. lra.
Defined.

Lemma derived_ends_witness :
  (Jsx.EasingHelpers.toEaseOut Jsx.Easing.quadIn (Fin 0) = Fin (1 - 1) /\
   Jsx.EasingHelpers.toEaseOut Jsx.Easing.quadIn (Fin 1) = Fin (1 - 0))
  /\
  (Jsx.EasingHelpers.toEaseInOut Jsx.Easing.quadIn (Fin 0)
   = Fin (0 / 2) /\
   Jsx.EasingHelpers.toEaseInOut Jsx.Easing.quadIn (Fin 1)
   = Fin (1 - 0 / 2) /\
   Jsx.EasingHelpers.toEaseInOut Jsx.Easing.quadIn (Fin 0.5)
   = Fin (1 - 1 / 2)).
Proof.
  apply (derived_ends Jsx.Easing.quadIn 0 1);
    rewrite quadIn_real; apply Fin_eq; lra.
Defined.

Lemma toEaseInOut_symmetric_witness :
  Jsx.EasingHelpers.toEaseInOut Jsx.Easing.quadIn (Fin 0.25)
  = Fin (0.25 / 2) /\
  Jsx.EasingHelpers.toEaseInOut Jsx.Easing.quadIn (Fin (1 - 0.25))
  = Fin (1 - 0.25 / 2).
Proof.
  apply (toEaseInOut_symmetric Jsx.Easing.quadIn 0.25 0.25).
  - lra.
  - rewrite quadIn_real. apply Fin_eq. lra.
Defined.

Lemma bounce_curves_range_witness :
  Shape.realIn 0 1 (Jsx.Easing.bounceOut (Fin 0.5)) /\
  Shape.realIn 0 1 (Jsx.Easing.bounceIn (Fin 0.5)) /\
  Shape.realIn 0 1 (Jsx.Easing.bounceInOut (Fin 0.5)).
Proof. apply bounce_curves_range. lra. Defined.

Lemma bounce_family_derived_witness :
  Jsx.Easing.bounceInOut (Fin 0.25)
  = mul (Fin 0.5) (Jsx.Easing.bounceIn (Fin (2 * 0.25))).
Proof.
  destruct bounce_family_derived as ((_ & Hlow & _) & _).
  apply Hlow. lra.
Defined.

Lemma squeeze_of_normalized_witness :
  Jsx.EasingHelpers.squeeze Jsx.Easing.quadIn (Fin 0) (Fin 1) (Fin 0.5)
  = Fin 0.25.
Proof.
  apply squeeze_of_normalized.
  - exact endpoints_quadIn.
  - rewrite quadIn_real. apply Fin_eq. lra.
Defined.

Lemma squeeze_ignores_ease_witness :
  Jsx.EasingHelpers.squeeze
    (Jsx.EasingHelpers.ease Jsx.Easing.quadIn (Fin 2) (Fin 5))
    (Fin 0) (Fin 2) (Fin 0.5)
  = Jsx.EasingHelpers.squeeze Jsx.Easing.quadIn (Fin 0) (Fin 2) (Fin 0.5).
Proof.
  apply (squeeze_ignores_ease Jsx.Easing.quadIn 2 5 0 2 0.5 0 4 1);
    try lra; rewrite quadIn_real; apply Fin_eq; lra.
Defined.

Lemma base_curves_range_witness :
  Shape.realIn 0 1 (Jsx.Easing.quadIn (Fin 0.5)) /\
  Shape.realIn 0 1 (Jsx.Easing.cubicIn (Fin 0.5)) /\
  Shape.realIn 0 1 (Jsx.Easing.sinIn (Fin 0.5)) /\
  Shape.realIn 0 1 (Jsx.Easing.circleIn (Fin 0.5)) /\
  Shape.realIn 0 1 (Jsx.Easing.expIn (Fin 0.5)).
Proof. apply base_curves_range. lra. Defined.

Lemma elasticIn_negative_witness :
  exists y : R, Jsx.Easing.elasticIn (Fin (3 / 13)) = Fin y /\ y < 0.
Proof. apply elasticIn_negative. lra. Defined.

Lemma makePolyIn_integer_witness :
  Jsx.Easing.makePolyIn (Fin (IZR (-1))) (Fin 2) = Fin (powerRZ 2 (-1)).
Proof. apply (proj1 makePolyIn_integer). left. lra. Defined.

Lemma makePolyIn_endpoints_witness :
  Props.Endpoints (Jsx.Easing.makePolyIn (Fin 0.5)).
Proof. apply makePolyIn_endpoints. lra. Defined.

Lemma half_not_integer (z : Z) : 0.5 <> IZR z.
Proof.
  intro H. assert (E : IZR (2 * z) = IZR 1) by (rewrite mult_IZR; lra).
  apply eq_IZR in E. lia.
Qed.

Lemma makePolyIn_degenerate_witness :
  Jsx.Easing.makePolyIn (Fin (-1)) (Fin 0) = PosInf /\
  Jsx.Easing.makePolyIn (Fin 0.5) (Fin (-1)) = NaN.
Proof.
  destruct makePolyIn_degenerate as (_ & Hinf & Hnan). split.
  - apply Hinf. lra.
  - apply Hnan; [lra | exact half_not_integer].
Defined.

Lemma makeBackIn_overshoot_witness :
  exists y : R,
    Jsx.Easing.makeBackIn (Fin 1) (Fin 0.25) = Fin y /\
    (0.25 < 1 / (1 + 1) -> y < 0) /\
    (0.25 = 1 / (1 + 1) -> y = 0) /\
    (1 / (1 + 1) < 0.25 -> 0 < y).
Proof. apply makeBackIn_overshoot; lra. Defined.

Lemma makeElasticIn_endpoints_witness :
  Props.Endpoints (Jsx.Easing.makeElasticIn (Fin 7) (Fin 3)).
Proof. apply makeElasticIn_endpoints. lra. Defined.

Lemma makeBounceIn_real_witness :
  Jsx.Easing.makeBounceIn (Fin 3) (Fin 2) (Fin 0.5)
  = Fin (BounceReal.curve (BounceReal.clamp 2) 3 0.5).
Proof. apply makeBounceIn_real; lra. Defined.

Lemma makeBounceIn_endpoints_witness :
  Props.Endpoints (Jsx.Easing.makeBounceIn (Fin (IZR 3)) (Fin 2)).
Proof. apply makeBounceIn_endpoints. lia. Defined.

Lemma makeBounceIn_range_witness :
  Shape.realIn 0 1
    (Jsx.Easing.makeBounceIn (Fin (IZR 3)) (Fin 2) (Fin 0.5)).
Proof. apply makeBounceIn_range; [lia | lra]. Defined.

Lemma advance_after_end_witness :
  value (advance (Fin 0) (Fin 10) Legacy.Easing.quadIn
           (mkAnim (Fin 0) (Fin 0) false) (Fin 16) (Fin 12))
  = Legacy.Easing.quadIn (Fin 1) /\
  finished (advance (Fin 0) (Fin 10) Legacy.Easing.quadIn
              (mkAnim (Fin 0) (Fin 0) false) (Fin 16) (Fin 12))
  = true.
Proof. apply advance_after_end; lra. Defined.

Lemma advance_before_end_witness :
  value (advance (Fin 0) (Fin 10) Legacy.Easing.quadIn
           (mkAnim (Fin 0) (Fin 0) false) (Fin 16) (Fin 5))
  = Legacy.Easing.quadIn (Fin ((5 - 0) / 10)) /\
  finished (advance (Fin 0) (Fin 10) Legacy.Easing.quadIn
              (mkAnim (Fin 0) (Fin 0) false) (Fin 16) (Fin 5))
  = false.
Proof.
  apply (advance_before_end Legacy.Easing.quadIn
           (mkAnim (Fin 0) (Fin 0) false)); lra.
Defined.

Lemma advance_linear_half :
  value (advance (Fin 0) (Fin 10) Legacy.Easing.linear
           (mkAnim (Fin 0) (Fin 0) false) (Fin 16) (Fin 5))
  = Fin 0.5.
Proof.
  rewrite advance_value. cbn [sub div].
  rewrite (Reqb_false 10 0) by lra. cbn [ge le].
  rewrite Rleb_false by lra. unfold Legacy.Easing.linear.
  apply Fin_eq. lra.
Qed.

Lemma advance_velocity_witness :
  exists vel : R,
    velocity (advance (Fin 0) (Fin 10) Legacy.Easing.linear
                (mkAnim (Fin 0) (Fin 0) false) (Fin 16) (Fin 5))
    = Fin vel /\
    0 + vel * 16 = 0.5.
Proof.
  apply advance_velocity.
  - lra.
  - reflexivity.
  - exact advance_linear_half.
Defined.

Lemma advance_zero_duration_witness :
  value (advance (Fin 0) (Fin 0) Legacy.Easing.quadIn
           (mkAnim (Fin 0) (Fin 0) false) (Fin 16) (Fin 1))
  = Legacy.Easing.quadIn (Fin 1) /\
  finished (advance (Fin 0) (Fin 0) Legacy.Easing.quadIn
              (mkAnim (Fin 0) (Fin 0) false) (Fin 16) (Fin 1))
  = true.
Proof.
  apply (proj1 (advance_zero_duration Legacy.Easing.quadIn
                  (mkAnim (Fin 0) (Fin 0) false) 0 16 1)).
  lra.
Defined.

Lemma advance_same_instant_witness :
  value (advance (Fin 0) (Fin 10) Legacy.Easing.linear
           (advance (Fin 0) (Fin 10) Legacy.Easing.linear
              (mkAnim (Fin 0) (Fin 0) false) (Fin 16) (Fin 5))
           (Fin 16) (Fin 5))
  = value (advance (Fin 0) (Fin 10) Legacy.Easing.linear
             (mkAnim (Fin 0) (Fin 0) false) (Fin 16) (Fin 5)) /\
  finished (advance (Fin 0) (Fin 10) Legacy.Easing.linear
              (advance (Fin 0) (Fin 10) Legacy.Easing.linear
                 (mkAnim (Fin 0) (Fin 0) false) (Fin 16) (Fin 5))
              (Fin 16) (Fin 5))
  = finished (advance (Fin 0) (Fin 10) Legacy.Easing.linear
                (mkAnim (Fin 0) (Fin 0) false) (Fin 16) (Fin 5)) /\
  velocity (advance (Fin 0) (Fin 10) Legacy.Easing.linear
              (advance (Fin 0) (Fin 10) Legacy.Easing.linear
                 (mkAnim (Fin 0) (Fin 0) false) (Fin 16) (Fin 5))
              (Fin 16) (Fin 5))
  = Fin 0.
Proof.
  apply (advance_same_instant Legacy.Easing.linear
           (mkAnim (Fin 0) (Fin 0) false) (Fin 0) (Fin 10) (Fin 16)
           (Fin 5) 16 0.5).
  - lra.
  - exact advance_linear_half.
Defined.

End Instances.
